(** * FreePunch (checador): identification engine and sync worker

    A shallow embedding of the decision logic of the time clock:
    - [checador/config.py]       the configuration records,
    - [checador/fingerprint.py]  [FingerprintMatcher.identify],
    - [checador/api/admin.py]    [capture_sample],
    - [checador/sync.py]         [SyncWorker.start], [sync_now], [_sync_loop].

    Python [int] is unbounded, so integers are [Z].  Paths and text are
    [string].  The NBIS binaries, the camera and the HTTP endpoint are
    external: they appear as functions the code is parameterised by. *)

From Stdlib Require Import ZArith Ascii String List Lia DecimalString.
From stdpp Require Import base option list gmap strings.

Local Open Scope string_scope.
Local Open Scope Z_scope.
Local Open Scope list_scope.

(** ** checador/config.py *)

Module Config.

Record AppConfig := {
  device_id : string
}.

Record FingerprintConfig := {
  nbis_mindtct : string;
  nbis_bozorth3 : string;
  match_threshold : Z;
  enrollment_samples : Z;
  min_quality_score : Z
}.

Record ServerConfig := {
  enabled : bool;
  url : string;
  api_key : string;
  sync_interval_seconds : Z;
  retry_max_attempts : Z;
  retry_backoff_base : Z
}.

Record t := {
  app : AppConfig;
  fingerprint : FingerprintConfig;
  server : ServerConfig;
  template_dir : string
}.

(** The defaults of the pydantic settings classes. *)
Definition default_fingerprint : FingerprintConfig :=
  {| nbis_mindtct := "/usr/local/bin/mindtct";
     nbis_bozorth3 := "/usr/local/bin/bozorth3";
     match_threshold := 40;
     enrollment_samples := 3;
     min_quality_score := 20 |}.

Definition default_server : ServerConfig :=
  {| enabled := false; url := ""; api_key := "";
     sync_interval_seconds := 300;
     retry_max_attempts := 5;
     retry_backoff_base := 2 |}.

Definition default : t :=
  {| app := {| device_id := "CHECADOR-001" |};
     fingerprint := default_fingerprint;
     server := default_server;
     template_dir := "/var/lib/checador/templates" |}.

End Config.

(** [str(n)] for a Python integer. *)
Definition str_of_int (n : Z) : string :=
  NilZero.string_of_int (Z.to_int n).

(** ** checador/fingerprint.py *)

Module Fingerprint.

(** The two log lines [identify] ends with. *)
Inductive log_line :=
| MatchFound (template_id : option Z) (score : Z)
| NoMatchFound (best_score threshold : Z).

Section Matcher.

(** [match_fingerprints] runs bozorth3 on two minutiae files: a score,
    or [None] when the tool fails, times out or prints no integer. *)
Variable match_fingerprints : string -> string -> option Z.
Variable config : Config.t.

(** The body of the [for] loop of [identify], carrying the two
    locals [best_score] and [best_template_id]. *)
Fixpoint scan (probe_xyt : string) (gallery_templates : list (Z * string))
    (best_score : Z) (best_template_id : option Z) : Z * option Z :=
  match gallery_templates with
  | [] => (best_score, best_template_id)
  | (template_id, gallery_xyt) :: rest =>
      match match_fingerprints probe_xyt gallery_xyt with
      | None => scan probe_xyt rest best_score best_template_id
      | Some score =>
          if score >? best_score
          then scan probe_xyt rest score (Some template_id)
          else scan probe_xyt rest best_score best_template_id
      end
  end.

Definition best_of (probe_xyt : string) (gallery_templates : list (Z * string))
    : Z * option Z :=
  scan probe_xyt gallery_templates 0 None.

(** [identify] with the log line it writes.  The returned template id
    is the local [best_template_id], which is still [None] when no
    score exceeded the initial 0. *)
Definition identify_logged (probe_xyt : string)
    (gallery_templates : list (Z * string))
    : option (option Z * Z) * log_line :=
  let '(best_score, best_template_id) := best_of probe_xyt gallery_templates in
  let threshold := Config.match_threshold (Config.fingerprint config) in
  if best_score >=? threshold
  then (Some (best_template_id, best_score), MatchFound best_template_id best_score)
  else (None, NoMatchFound best_score threshold).

Definition identify (probe_xyt : string) (gallery_templates : list (Z * string))
    : option (option Z * Z) :=
  fst (identify_logged probe_xyt gallery_templates).

Definition identify_log (probe_xyt : string)
    (gallery_templates : list (Z * string)) : log_line :=
  snd (identify_logged probe_xyt gallery_templates).

(** The scores of the matcher calls that succeeded, in gallery order. *)
Definition scores (probe_xyt : string) (gallery_templates : list (Z * string))
    : list Z :=
  omap (fun t => match_fingerprints probe_xyt (snd t)) gallery_templates.

(** The gallery without the templates whose matcher call fails. *)
Definition succeeded (probe_xyt : string) (gallery_templates : list (Z * string))
    : list (Z * string) :=
  filter (fun t => is_Some (match_fingerprints probe_xyt (snd t)))
         gallery_templates.

End Matcher.

End Fingerprint.

(** ** checador/database.py

    The module is imported by [sync.py] and [api/admin.py] but is not
    among the sources; what the code needs of it follows the spec. *)

Module Database.

(** Modelled from the spec: the model classes [User], [Template] and
    [Punch] are missing; their fields are those the data model of the spec
    lists and the code reads.  A [datetime] is kept as the text
    [isoformat()] gives for it. *)
Record datetime := { isoformat : string }.

Record User := {
  User_id : Z;
  name : string;
  employee_code : string;
  active : bool;
  created_at : datetime
}.

Record Template := {
  template_id : Z;
  template_user_id : Z;
  template_path : string;
  quality : Z
}.

(** Modelled from the spec: "sync status ∈ {unsynced, synced, error}". *)
Inductive sync_status := unsynced | synced | error.

Record Punch := {
  id : Z;
  user_id : Z;
  timestamp_utc : datetime;
  timestamp_local : datetime;
  punch_type : string;
  match_score : Z;
  device_id : string;
  status : sync_status;
  sync_error : option string
}.

(** Modelled from the spec: the [Database] class is missing.  The store
    holds the Users by identifier, and the Templates and the Punches in
    creation order (oldest first). *)
Record t := {
  users : gmap Z User;
  templates : list Template;
  punches : list Punch
}.

(** Modelled from the spec: a Punch that needs no delivery any more. *)
Definition is_synced (p : Punch) : bool :=
  match status p with synced => true | _ => false end.

(** Modelled from the spec: [Database.get_user] is missing.  A User is
    resolved by identifier, [None] when there is none. *)
Definition get_user (uid : Z) (db : t) : option User := users db !! uid.

(** Modelled from the spec: [Database.get_unsynced_punches] is missing.
    "Read up to a bounded batch of Punches with status unsynced, ordered
    by creation time (oldest first)", where "error is treated as a
    sub-state of not-yet-synced for selection purposes". *)
Definition get_unsynced_punches (limit : Z) (db : t) : list Punch :=
  take (Z.to_nat limit) (filter (fun p => is_synced p = false) (punches db)).

(** Modelled from the spec: the transition of one Punch to synced. *)
Definition set_synced (p : Punch) : Punch :=
  {| id := id p; user_id := user_id p;
     timestamp_utc := timestamp_utc p; timestamp_local := timestamp_local p;
     punch_type := punch_type p; match_score := match_score p;
     device_id := device_id p;
     status := synced; sync_error := sync_error p |}.

(** Modelled from the spec: the transition of one Punch to error, with
    the "last sync error message". *)
Definition set_error (msg : string) (p : Punch) : Punch :=
  {| id := id p; user_id := user_id p;
     timestamp_utc := timestamp_utc p; timestamp_local := timestamp_local p;
     punch_type := punch_type p; match_score := match_score p;
     device_id := device_id p;
     status := error; sync_error := Some msg |}.

(** Modelled from the spec: the store with its Punches replaced. *)
Definition with_punches (ps : list Punch) (db : t) : t :=
  {| users := users db; templates := templates db; punches := ps |}.

(** Modelled from the spec: [Database.mark_punches_synced] is missing.
    [markSynced(ids)] gives every Punch whose identifier is listed the
    status synced. *)
Definition mark_punches_synced (punch_ids : list Z) (db : t) : t :=
  with_punches
    ((fun p => if bool_decide (id p ∈ punch_ids) then set_synced p else p)
       <$> punches db)
    db.

(** Modelled from the spec: [Database.mark_punch_sync_error] is missing.
    [markError(id, message)] gives the Punch the status error "with the
    failure detail attached". *)
Definition mark_punch_sync_error (punch_id : Z) (msg : string) (db : t) : t :=
  with_punches
    ((fun p => if bool_decide (id p = punch_id) then set_error msg p else p)
       <$> punches db)
    db.

(** Modelled from the spec: [Database.add_template] is missing.
    [createTemplate(userId, featureHandle, quality)] appends a Template
    owned by the user; the store numbers its Templates as they come. *)
Definition add_template (uid : Z) (path : string) (q : Z) (db : t) : t :=
  {| users := users db;
     templates := templates db ++
       [ {| template_id := Z.of_nat (S (length (templates db)));
            template_user_id := uid;
            template_path := path;
            quality := q |} ];
     punches := punches db |}.

(** Modelled from the spec: [Database.get_user_templates] is missing
    ([listTemplatesForUser(userId)]). *)
Definition get_user_templates (uid : Z) (db : t) : list Template :=
  filter (fun tpl => template_user_id tpl = uid) (templates db).

End Database.

(** ** Effects

    The asynchronous functions act on the store and call out to the camera,
    to mindtct and to the sync endpoint.  A computation takes the store and
    gives its value, the store it leaves, and the calls it made, in order. *)

Module Effects.

(** One entry of the ["punches"] list of the upload. *)
Record punch_entry := {
  e_user_id : Z;
  e_employee_code : string;
  e_timestamp_utc : string;
  e_timestamp_local : string;
  e_punch_type : string;
  e_match_score : Z;
  e_device_id : string
}.

Record payload := {
  p_device_id : string;
  p_punches : list punch_entry
}.

(** The argument of [asyncio.sleep]: whole seconds, or the fraction
    [base ** exponent] Python computes in floating point when the
    exponent is negative. *)
Inductive delay :=
| Seconds (n : Z)
| FractionalSeconds (base exponent : Z).

Inductive event :=
| GetUser (uid : Z)
| GetUnsyncedPunches (limit : Z)
| MarkPunchesSynced (punch_ids : list Z)
| MarkPunchSyncError (punch_id : Z) (msg : string)
| AddTemplate (uid : Z) (path : string) (q : Z)
| CaptureFingerprint (image_path : string)
| ExtractFeatures (image_path : string)
| HttpPost (url : string) (body : payload) (headers : list (string * string))
| Sleep (d : delay)
| SleepRaised (d : delay).

Definition M (A : Type) : Type := Database.t -> A * Database.t * list event.

#[export] Instance M_ret : MRet M := fun A (a : A) db => (a, db, []).

#[export] Instance M_bind : MBind M := fun A B (k : A -> M B) (c : M A) db =>
  let '(a, db1, tr1) := c db in
  let '(b, db2, tr2) := k a db1 in
  (b, db2, tr1 ++ tr2).

(** Reading the store. *)
Definition read {A} (ev : event) (f : Database.t -> A) : M A :=
  fun db => (f db, db, [ev]).

(** Writing the store. *)
Definition write (ev : event) (f : Database.t -> Database.t) : M unit :=
  fun db => (tt, f db, [ev]).

(** A call that leaves the store alone. *)
Definition call {A} (ev : event) (a : A) : M A :=
  fun db => (a, db, [ev]).

Definition get_user (uid : Z) : M (option Database.User) :=
  read (GetUser uid) (Database.get_user uid).

Definition get_unsynced_punches (limit : Z) : M (list Database.Punch) :=
  read (GetUnsyncedPunches limit) (Database.get_unsynced_punches limit).

Definition mark_punches_synced (punch_ids : list Z) : M unit :=
  write (MarkPunchesSynced punch_ids) (Database.mark_punches_synced punch_ids).

Definition mark_punch_sync_error (punch_id : Z) (msg : string) : M unit :=
  write (MarkPunchSyncError punch_id msg)
        (Database.mark_punch_sync_error punch_id msg).

Definition add_template (uid : Z) (path : string) (q : Z) : M unit :=
  write (AddTemplate uid path q) (Database.add_template uid path q).

Definition value {A} (r : A * Database.t * list event) : A := fst (fst r).
Definition store {A} (r : A * Database.t * list event) : Database.t := snd (fst r).
Definition calls {A} (r : A * Database.t * list event) : list event := snd r.

End Effects.

(** ** checador/api/admin.py *)

Module Admin.
Import Effects.

Record CaptureResponse := {
  success : bool;
  quality : Z;
  sample_number : Z;
  message : string
}.

(** What the endpoint answers: the response model, or the
    [HTTPException] it raises. *)
Inductive reply :=
| HTTPException (status_code : Z)
| Reply (r : CaptureResponse).

(** [str(xyt_path)] for the optional path [extract_features] returns. *)
Definition str_of_path (xyt_path : option string) : string :=
  match xyt_path with Some p => p | None => "None" end.

(** [error or "Capture failed"]. *)
Definition or_default (err : option string) (default : string) : string :=
  match err with
  | Some e => if bool_decide (e = "") then default else e
  | None => default
  end.

Section CaptureSample.

Variable config : Config.t.
(** [directory / name] on [pathlib] paths. *)
Variable joinpath : string -> string -> string.
(** The module-level token store. *)
Variable active_tokens : gmap string Database.datetime.
(** [CameraManager.capture_fingerprint]: [(success, error)]. *)
Variable capture_fingerprint : string -> bool * option string.
(** [FingerprintMatcher.extract_features]: [(success, xyt_path, quality)]. *)
Variable extract_features : string -> bool * option string * Z.
(** [datetime.utcnow().strftime("%Y%m%d_%H%M%S")]. *)
Variable utcnow : string.

Definition verify_token (token : string) : bool :=
  bool_decide (is_Some (active_tokens !! token)).

(** The file the capture is written to. *)
Definition image_path_for (user : Database.User) (sample_number : Z)
    : string :=
  let timestamp := utcnow in
  let filename :=
    Database.employee_code user +:+ "_" +:+
    str_of_int sample_number +:+ "_" +:+ timestamp in
  joinpath (Config.template_dir config) (filename +:+ ".png").

(** [capture_sample].  The collaborators are taken to be constructed; the
    camera and the extractor report their failures in their results and
    the calls to the store are total here, so the closing
    [except Exception] has nothing to catch. *)
Definition capture_sample (user_id sample_number : Z) (token : string)
    : M reply :=
  if negb (verify_token token) then mret (HTTPException 401)
  else
    user ← Effects.get_user user_id;
    match user with
    | None =>
        mret (Reply {| success := false; quality := 0;
                       sample_number := sample_number;
                       message := "User not found" |})
    | Some user =>
        let image_path := image_path_for user sample_number in
        '(success, error) ←
          call (CaptureFingerprint image_path) (capture_fingerprint image_path);
        if negb success then
          mret (Reply {| success := false; quality := 0;
                         sample_number := sample_number;
                         message := or_default error "Capture failed" |})
        else
          '(success, xyt_path, quality) ←
            call (ExtractFeatures image_path) (extract_features image_path);
          if negb success then
            mret (Reply {| success := false; quality := 0;
                           sample_number := sample_number;
                           message := "Feature extraction failed" |})
          else if quality <?
                  Config.min_quality_score (Config.fingerprint config) then
            mret (Reply {| success := false; quality := quality;
                           sample_number := sample_number;
                           message :=
                             "Low quality fingerprint (score=" +:+
                             str_of_int quality +:+ ", minimum=" +:+
                             str_of_int (Config.min_quality_score
                                           (Config.fingerprint config)) +:+
                             ")" |})
          else
            Effects.add_template (Database.User_id user)
                                 (str_of_path xyt_path) quality;;
            mret (Reply {| success := true; quality := quality;
                           sample_number := sample_number;
                           message := "Sample captured successfully" |})
    end.

End CaptureSample.

End Admin.

(** ** checador/sync.py *)

Module Sync.
Import Effects.

(** What [client.post] gives: a response, or an exception (connection
    refused, timeout, ...). *)
Inductive http_outcome :=
| Response (status_code : Z) (text : string)
| Raised (exc : string).

Definition endpoint : Type :=
  string -> payload -> list (string * string) -> http_outcome.

Inductive task := SyncLoopTask.

Record SyncWorker := {
  running : bool;
  task_of : option task
}.

Section Worker.

Variable config : Config.t.

Definition start (self : SyncWorker) : SyncWorker :=
  if negb (Config.enabled (Config.server config)) then self
  else if running self then self
  else {| running := true; task_of := Some SyncLoopTask |}.

Definition stop (self : SyncWorker) : SyncWorker :=
  {| running := false; task_of := task_of self |}.

(** The dictionary appended to [punch_data] for a punch whose user is
    found. *)
Definition entry_of (user : Database.User) (punch : Database.Punch)
    : punch_entry :=
  {| e_user_id := Database.User_id user;
     e_employee_code := Database.employee_code user;
     e_timestamp_utc := Database.isoformat (Database.timestamp_utc punch);
     e_timestamp_local := Database.isoformat (Database.timestamp_local punch);
     e_punch_type := Database.punch_type punch;
     e_match_score := Database.match_score punch;
     e_device_id := Database.device_id punch |}.

(** The loop that fills [punch_data]. *)
Fixpoint prepare (punches : list Database.Punch) : M (list punch_entry) :=
  match punches with
  | [] => mret []
  | punch :: rest =>
      user ← Effects.get_user (Database.user_id punch);
      match user with
      | None => prepare rest
      | Some user =>
          punch_data ← prepare rest;
          mret (entry_of user punch :: punch_data)
      end
  end.

(** The loop that marks the error on the punches. *)
Fixpoint mark_errors (punches : list Database.Punch) (error : string)
    : M unit :=
  match punches with
  | [] => mret tt
  | punch :: rest =>
      Effects.mark_punch_sync_error (Database.id punch) error;;
      mark_errors rest error
  end.

Definition http_post (post : endpoint) (url : string) (json : payload)
    (headers : list (string * string)) : M http_outcome :=
  call (HttpPost url json headers) (post url json headers).

(** [sync_now].  An exception of the transport is caught by the
    [except Exception] that encloses the body, which logs it and returns
    [False].  The calls to the store are total here. *)
Definition sync_now (post : endpoint) : M bool :=
  if negb (Config.enabled (Config.server config)) then mret true
  else if bool_decide (Config.url (Config.server config) = "") then mret true
  else
    punches ← Effects.get_unsynced_punches 100;
    match punches with
    | [] => mret true
    | _ =>
        punch_data ← prepare punches;
        let payload :=
          {| p_device_id := Config.device_id (Config.app config);
             p_punches := punch_data |} in
        let headers :=
          [ ("Authorization",
             "Bearer " +:+ Config.api_key (Config.server config));
            ("Content-Type", "application/json") ] in
        response ← http_post post
                     (Config.url (Config.server config) +:+ "/punches")
                     payload headers;
        match response with
        | Raised e => mret false
        | Response status_code text =>
            if status_code =? 200 then
              let punch_ids := Database.id <$> punches in
              Effects.mark_punches_synced punch_ids;;
              mret true
            else
              let error :=
                "Server returned " +:+ str_of_int status_code +:+ ": " +:+
                text in
              mark_errors punches error;;
              mret false
        end
    end.

(** Whether [str] of the integer raises [ValueError]: it has more digits
    than the interpreter converts. *)
Variable str_raises : Z -> bool.

(** Whether [asyncio.sleep] of the integer raises [OverflowError]: the
    delay is positive and no float holds it. *)
Variable sleep_raises : Z -> bool.

(** Whether [base ** exponent] raises [OverflowError] for a negative
    exponent: no float holds the base or the exponent. *)
Variable float_pow_raises : Z -> Z -> bool.

(** [base ** exponent] on Python integers, [None] when it raises.  A
    negative exponent gives a float, and a negative power of 0 is a
    [ZeroDivisionError]. *)
Definition pow (base exponent : Z) : option delay :=
  if 0 <=? exponent then Some (Seconds (base ^ exponent))
  else if base =? 0 then None
  else if float_pow_raises base exponent then None
  else Some (FractionalSeconds base exponent).

(** Whether the log line of a failed cycle raises: it writes the backoff. *)
Definition warning_raises (backoff : delay) : bool :=
  match backoff with
  | Seconds n => str_raises n
  | FractionalSeconds _ _ => false
  end.

(** [await asyncio.sleep(delay)]: [true] when it returns, [false] when it
    raises, which it does before any time passes. *)
Definition sleep (d : delay) : M bool :=
  match d with
  | Seconds n =>
      if sleep_raises n then call (SleepRaised d) false
      else call (Sleep d) true
  | FractionalSeconds _ _ => call (Sleep d) true
  end.

(** The [except Exception] branch of the loop: an error line, and a
    sleep of 60 seconds. *)
Definition on_exception : M unit := call (Sleep (Seconds 60)) tt.

(** [_sync_loop], with one endpoint behaviour per cycle; the run ends
    when the task is cancelled in a sleep.  [sync_now] catches every
    exception itself; what can raise in the [try] block is the power, the
    log line and the sleep, and then the [except Exception] branch runs,
    with [retry_count] as the branch taken had set it. *)
Fixpoint _sync_loop (cycles : list endpoint) (retry_count : Z) : M Z :=
  match cycles with
  | [] => mret retry_count
  | post :: rest =>
      success ← sync_now post;
      if (success : bool) then
        let retry_count := 0 in
        returned ← sleep (Seconds (Config.sync_interval_seconds
                                     (Config.server config)));
        (if (returned : bool) then mret tt else on_exception);;
        _sync_loop rest retry_count
      else
        let retry_count :=
          Z.min (retry_count + 1)
                (Config.retry_max_attempts (Config.server config)) in
        match pow (Config.retry_backoff_base (Config.server config))
                  retry_count with
        | Some backoff =>
            if warning_raises backoff then on_exception
            else
              returned ← sleep backoff;
              if (returned : bool) then mret tt else on_exception
        | None => on_exception
        end;;
        _sync_loop rest retry_count
  end.

End Worker.

End Sync.

(** ** Notions the statements below use *)

Module Policy.

(** The greatest of 0 and the scores: the maximum score of a scan as
    [identify] reports it. *)
Definition max_score (l : list Z) : Z := foldr Z.max 0 l.

(** [m] is the greatest element of [l]. *)
Definition is_max_score (m : Z) (l : list Z) : Prop :=
  m ∈ l ∧ ∀ s, s ∈ l → s ≤ m.

Section TieBreak.

Variable db : Database.t.

Definition owner_of (tid : Z) : option Z :=
  Database.template_user_id <$>
    find (fun tpl => bool_decide (Database.template_id tpl = tid))
         (Database.templates db).

(** The number of Templates enrolled for the owner of a Template. *)
Definition enrolled_count (tid : Z) : nat :=
  match owner_of tid with
  | Some uid => length (Database.get_user_templates uid db)
  | None => O
  end.

(** The place of a Template in creation order. *)
Fixpoint created_rank_in (tpls : list Database.Template) (tid : Z) : nat :=
  match tpls with
  | [] => O
  | tpl :: rest =>
      if bool_decide (Database.template_id tpl = tid) then O
      else S (created_rank_in rest tid)
  end.

Definition created_rank (tid : Z) : nat :=
  created_rank_in (Database.templates db) tid.

(** The gallery with the score of each Template whose matcher call
    succeeded. *)
Definition scored (match_fingerprints : string -> string -> option Z)
    (probe_xyt : string) (gallery_templates : list (Z * string))
    : list (Z * Z) :=
  omap (fun t => pair (fst t) <$> match_fingerprints probe_xyt (snd t))
       gallery_templates.

(** The tie-break in the spec's words: of two Templates with the
    identical score, "prefer the one belonging to the User with more
    total enrolled Templates; if still tied, prefer the
    earliest-created Template". *)
Definition spec_prefers (a b : Z) : bool :=
  (enrolled_count b <? enrolled_count a)%nat
  || ((enrolled_count a =? enrolled_count b)%nat
      && (created_rank a <=? created_rank b)%nat).

(** The winner the spec names among scored Templates: the maximum
    score, ties settled by [spec_prefers]. *)
Fixpoint spec_winner (scored : list (Z * Z)) : option (Z * Z) :=
  match scored with
  | [] => None
  | (tid, score) :: rest =>
      match spec_winner rest with
      | None => Some (tid, score)
      | Some (tid', score') =>
          if (score' <? score)
             || ((score =? score') && spec_prefers tid tid')
          then Some (tid, score)
          else Some (tid', score')
      end
  end.

End TieBreak.

End Policy.

(** ** The answers of [capture_sample] by name *)

Module Answers.
Import Admin.

Definition extraction_failed (sample_number : Z) : CaptureResponse :=
  {| success := false; quality := 0; sample_number := sample_number;
     message := "Feature extraction failed" |}.

Definition low_quality (config : Config.t) (sample_number q : Z)
    : CaptureResponse :=
  {| success := false; quality := q; sample_number := sample_number;
     message := "Low quality fingerprint (score=" +:+ str_of_int q +:+
                ", minimum=" +:+
                str_of_int (Config.min_quality_score
                              (Config.fingerprint config)) +:+ ")" |}.

Definition accepted (sample_number q : Z) : CaptureResponse :=
  {| success := true; quality := q; sample_number := sample_number;
     message := "Sample captured successfully" |}.

End Answers.

(** ** The parts of a sync cycle by name *)

Module Outbox.
Import Effects.

(** The entries of the upload: the punches whose user is found. *)
Definition resolved (db : Database.t) (punches : list Database.Punch)
    : list punch_entry :=
  omap (fun p => (fun u => Sync.entry_of u p) <$>
                   Database.get_user (Database.user_id p) db)
       punches.

(** The punches of a batch that have an entry in the upload. *)
Definition included (db : Database.t) (punches : list Database.Punch)
    : list Database.Punch :=
  filter (fun p => is_Some (Database.get_user (Database.user_id p) db)) punches.

Definition upload (config : Config.t) (db : Database.t)
    (punches : list Database.Punch) : payload :=
  {| p_device_id := Config.device_id (Config.app config);
     p_punches := resolved db punches |}.

Definition headers (config : Config.t) : list (string * string) :=
  [ ("Authorization", "Bearer " +:+ Config.api_key (Config.server config));
    ("Content-Type", "application/json") ].

Definition punches_url (config : Config.t) : string :=
  Config.url (Config.server config) +:+ "/punches".

(** What the endpoint answers to the upload of a batch. *)
Definition answer (config : Config.t) (post : Sync.endpoint)
    (db : Database.t) (punches : list Database.Punch) : Sync.http_outcome :=
  post (punches_url config) (upload config db punches) (headers config).

Definition error_detail (status_code : Z) (text : string) : string :=
  "Server returned " +:+ str_of_int status_code +:+ ": " +:+ text.

(** The store once the error is marked on every punch identified in
    [punch_ids]. *)
Definition with_errors (punch_ids : list Z) (msg : string) (db : Database.t)
    : Database.t :=
  Database.with_punches
    ((fun p => if bool_decide (Database.id p ∈ punch_ids)
               then Database.set_error msg p else p)
       <$> Database.punches db)
    db.

(** The calls a cycle makes before it marks anything. *)
Definition reads (config : Config.t) (db : Database.t)
    (punches : list Database.Punch) : list event :=
  GetUnsyncedPunches 100
    :: ((fun p => GetUser (Database.user_id p)) <$> punches)
    ++ [HttpPost (punches_url config) (upload config db punches)
                 (headers config)].

Definition posted (tr : list event) : list payload :=
  omap (fun ev => match ev with HttpPost _ body _ => Some body | _ => None end)
       tr.

Definition sleeps (tr : list event) : list delay :=
  omap (fun ev => match ev with Sleep d => Some d | _ => None end) tr.

Definition sync_ready (config : Config.t) : Prop :=
  Config.enabled (Config.server config) = true
  ∧ Config.url (Config.server config) ≠ "".

(** The delays of the calls of [asyncio.sleep] that raised. *)
Definition raised (tr : list event) : list delay :=
  omap (fun ev => match ev with SleepRaised d => Some d | _ => None end) tr.

(** The calls of [asyncio.sleep] for one delay: the call itself, and the
    sleep of the exception branch when it raises. *)
Definition sleep_calls (sleep_raises : Z -> bool) (d : delay) : list event :=
  match d with
  | Seconds n =>
      if sleep_raises n then [SleepRaised d; Sleep (Seconds 60)]
      else [Sleep d]
  | FractionalSeconds _ _ => [Sleep d]
  end.

(** The calls a cycle of the loop makes after its [sync_now], from the
    result of [sync_now] and the retry count the cycle set. *)
Definition cycle_sleeps (config : Config.t)
    (str_raises sleep_raises : Z -> bool)
    (float_pow_raises : Z -> Z -> bool) (success : bool) (retry_count : Z)
    : list event :=
  if success then
    sleep_calls sleep_raises
      (Seconds (Config.sync_interval_seconds (Config.server config)))
  else
    match Sync.pow float_pow_raises
                   (Config.retry_backoff_base (Config.server config))
                   retry_count with
    | Some backoff =>
        if Sync.warning_raises str_raises backoff then [Sleep (Seconds 60)]
        else sleep_calls sleep_raises backoff
    | None => [Sleep (Seconds 60)]
    end.

End Outbox.

(** ** Concrete inputs *)

Module Examples.

(** A matcher given by a table of gallery files. *)
Definition matcher (probe_xyt gallery_xyt : string) : option Z :=
  if bool_decide (gallery_xyt = "a.xyt") then Some 50
  else if bool_decide (gallery_xyt = "b.xyt") then Some 50
  else if bool_decide (gallery_xyt = "c.xyt") then Some 10
  else if bool_decide (gallery_xyt = "u1.xyt") then Some 42
  else if bool_decide (gallery_xyt = "u2.xyt") then Some 41
  else if bool_decide (gallery_xyt = "neg.xyt") then Some (-3)
  else None.

Definition with_threshold (thr : Z) : Config.t :=
  {| Config.app := Config.app Config.default;
     Config.fingerprint :=
       {| Config.nbis_mindtct := "/usr/local/bin/mindtct";
          Config.nbis_bozorth3 := "/usr/local/bin/bozorth3";
          Config.match_threshold := thr;
          Config.enrollment_samples := 3;
          Config.min_quality_score := 20 |};
     Config.server := Config.server Config.default;
     Config.template_dir := Config.template_dir Config.default |}.

(** User 1 owns one Template, user 2 owns two; Templates 1 and 2 score
    alike. *)
Definition tie_templates : list Database.Template :=
  [ {| Database.template_id := 1; Database.template_user_id := 1;
       Database.template_path := "a.xyt"; Database.quality := 30 |};
    {| Database.template_id := 2; Database.template_user_id := 2;
       Database.template_path := "b.xyt"; Database.quality := 30 |};
    {| Database.template_id := 3; Database.template_user_id := 2;
       Database.template_path := "c.xyt"; Database.quality := 30 |} ].

Definition tie_db : Database.t :=
  {| Database.users := ∅;
     Database.templates := tie_templates;
     Database.punches := [] |}.

Definition tie_gallery : list (Z * string) :=
  (fun tpl => (Database.template_id tpl, Database.template_path tpl))
    <$> tie_templates.

Definition stamp : Database.datetime :=
  {| Database.isoformat := "2024-05-06T08:00:00" |}.

Definition user_a : Database.User :=
  {| Database.User_id := 1; Database.name := "Ana";
     Database.employee_code := "A123"; Database.active := true;
     Database.created_at := stamp |}.

(** An unsynced punch [pid] of the user [uid]. *)
Definition punch_of (pid uid : Z) : Database.Punch :=
  {| Database.id := pid; Database.user_id := uid;
     Database.timestamp_utc := stamp; Database.timestamp_local := stamp;
     Database.punch_type := "in"; Database.match_score := 42;
     Database.device_id := "CHECADOR-001";
     Database.status := Database.unsynced; Database.sync_error := None |}.

Definition db_with (punches : list Database.Punch) : Database.t :=
  {| Database.users := {[ 1 := user_a ]};
     Database.templates := [];
     Database.punches := punches |}.

(** One punch waits for delivery. *)
Definition pending_db : Database.t := db_with [punch_of 1 1].

(** Punch 2 belongs to a user that is not in the store. *)
Definition orphan_db : Database.t := db_with [punch_of 1 1; punch_of 2 2].

(** Nothing waits for delivery. *)
Definition drained_db : Database.t :=
  db_with [Database.set_synced (punch_of 1 1)].

Definition sync_config : Config.t :=
  {| Config.app := Config.app Config.default;
     Config.fingerprint := Config.default_fingerprint;
     Config.server :=
       {| Config.enabled := true; Config.url := "https://sync.example";
          Config.api_key := "secret";
          Config.sync_interval_seconds := 300;
          Config.retry_max_attempts := 5;
          Config.retry_backoff_base := 2 |};
     Config.template_dir := Config.template_dir Config.default |}.

Definition accept_all : Sync.endpoint := fun _ _ _ => Sync.Response 200 "ok".

Definition reject_all : Sync.endpoint :=
  fun _ _ _ => Sync.Response 500 "Internal Server Error".

Definition unreachable : Sync.endpoint :=
  fun _ _ _ => Sync.Raised "ConnectError".

Definition pending_batch : list Database.Punch :=
  Database.get_unsynced_punches 100 pending_db.

Definition orphan_batch : list Database.Punch :=
  Database.get_unsynced_punches 100 orphan_db.

(** The cycle over [orphan_db] that the endpoint accepts. *)
Definition accepted_orphan_run : bool * Database.t * list Effects.event :=
  Sync.sync_now sync_config accept_all orphan_db.

(** The cycle over [pending_db] against an endpoint that is down. *)
Definition unreachable_run : bool * Database.t * list Effects.event :=
  Sync.sync_now sync_config unreachable pending_db.

(** The cycle over [pending_db] that the endpoint answers with 500. *)
Definition rejected_run : bool * Database.t * list Effects.event :=
  Sync.sync_now sync_config reject_all pending_db.

(** Two cycles in a row over [drained_db]. *)
Definition drained_run : bool * Database.t * list Effects.event :=
  Sync.sync_now sync_config unreachable drained_db.

Definition drained_rerun : bool * Database.t * list Effects.event :=
  Sync.sync_now sync_config unreachable (Effects.store drained_run).

Definition idle_worker : Sync.SyncWorker :=
  {| Sync.running := false; Sync.task_of := None |}.

Definition tokens : gmap string Database.datetime := {[ "tok" := stamp ]}.

Definition camera_ok (image_path : string) : bool * option string :=
  (true, None).

(** mindtct finding [q] minutiae. *)
Definition extractor (q : Z) (image_path : string)
    : bool * option string * Z :=
  (true, Some "/var/lib/checador/templates/A123_1.xyt", q).

Definition now : string := "20240506_080000".

(** The sync configuration with the base 2^1024. *)
Definition huge_base_config : Config.t :=
  {| Config.app := Config.app Config.default;
     Config.fingerprint := Config.default_fingerprint;
     Config.server :=
       {| Config.enabled := true; Config.url := "https://sync.example";
          Config.api_key := "secret";
          Config.sync_interval_seconds := 300;
          Config.retry_max_attempts := 5;
          Config.retry_backoff_base := 2 ^ 1024 |};
     Config.template_dir := Config.template_dir Config.default |}.

(** [directory / name] for a file name that holds no separator. *)
Definition joinpath (directory name : string) : string :=
  directory +:+ "/" +:+ name.

(** The interpreter of the runs below: [str] converts integers of at
    most 4300 digits, an integer that rounds to 2^1024 or more has no
    float, and so no integer of 2^1024 or more. *)
Definition str_raises (n : Z) : bool := 10 ^ 4300 <=? Z.abs n.

Definition sleep_raises (n : Z) : bool := 2 ^ 1024 - 2 ^ 970 <=? n.

Definition float_pow_raises (base exponent : Z) : bool :=
  (2 ^ 1024 - 2 ^ 970 <=? Z.abs base)
  || (2 ^ 1024 - 2 ^ 970 <=? Z.abs exponent).

(** The first sample of user 1, found to have [q] minutiae. *)
Definition sample_run (q : Z) : Admin.reply * Database.t * list Effects.event :=
  Admin.capture_sample Config.default joinpath tokens camera_ok (extractor q)
                       now 1 1 "tok" (db_with []).

(** The scenario of the spec: U1 scores 42, U2 scores 41. *)
Definition u_gallery : list (Z * string) := [(1, "u1.xyt"); (2, "u2.xyt")].

(** No matcher call succeeds on this gallery. *)
Definition unmatched_gallery : list (Z * string) :=
  [(7, "missing.xyt"); (8, "gone.xyt")].

(** One call fails and the other gives a negative score. *)
Definition negative_gallery : list (Z * string) :=
  [(7, "missing.xyt"); (9, "neg.xyt")].

End Examples.

(** ** checador/sync.py: status and life cycle *)

Module SyncStatus.
Import Effects.

(** The dictionary [get_status] returns. *)
Record status := {
  st_enabled : bool;
  st_running : bool;
  st_server_url : option string;
  st_unsynced_count : Z
}.

Definition get_status (config : Config.t) (self : Sync.SyncWorker) : M status :=
  unsynced ← Effects.get_unsynced_punches 1000;
  mret {| st_enabled := Config.enabled (Config.server config);
          st_running := Sync.running self;
          st_server_url :=
            if Config.enabled (Config.server config)
            then Some (Config.url (Config.server config)) else None;
          st_unsynced_count := Z.of_nat (length unsynced) |}.

(** The worker [__init__] builds. *)
Definition init : Sync.SyncWorker :=
  {| Sync.running := false; Sync.task_of := None |}.

(** The calls a program makes on a worker. *)
Inductive worker_call := CallStart | CallStop.

Definition apply_call (config : Config.t) (self : Sync.SyncWorker)
    (c : worker_call) : Sync.SyncWorker :=
  match c with
  | CallStart => Sync.start config self
  | CallStop => Sync.stop self
  end.

Definition apply_calls (config : Config.t) (cs : list worker_call)
    : Sync.SyncWorker :=
  foldl (apply_call config) init cs.

(** The punches that still need delivery, without the limit of a read. *)
Definition pending (db : Database.t) : list Database.Punch :=
  filter (fun p => Database.is_synced p = false) (Database.punches db).

End SyncStatus.

(** ** checador/api/admin.py: sessions *)

Module Sessions.

Record LoginResponse := {
  login_success : bool;
  login_token : option string
}.

Inductive login_reply :=
| LoginException (status_code : Z)
| LoginReply (r : LoginResponse).

Section Login.

(** [AuthManager.verify_password], from [checador.auth]. *)
Variable verify_password : string -> bool.

(** [login], with the token [secrets.token_urlsafe(32)] draws and the
    time [datetime.utcnow()] reads; the second component is the
    module-level [active_tokens] after the call. *)
Definition login (password : string) (token : string)
    (utcnow : Database.datetime)
    (active_tokens : gmap string Database.datetime)
    : login_reply * gmap string Database.datetime :=
  if verify_password password then
    (LoginReply {| login_success := true; login_token := Some token |},
     <[token := utcnow]> active_tokens)
  else (LoginException 401, active_tokens).

End Login.

(** [logout]: the answer is always [{"success": True}]. *)
Definition logout (token : string)
    (active_tokens : gmap string Database.datetime)
    : bool * gmap string Database.datetime :=
  (true,
   if bool_decide (is_Some (active_tokens !! token))
   then delete token active_tokens
   else active_tokens).

End Sessions.

(** ** checador/api/admin.py: the start of an enrollment *)

Module Directory.

(** Modelled from the spec: [Database.get_user_by_code] is missing.  A
    User has a "unique employee code"; the User that carries the code, if
    there is one. *)
Definition get_user_by_code (code : string) (db : Database.t)
    : option Database.User :=
  snd <$> find (fun kv => bool_decide (Database.employee_code (snd kv) = code))
               (map_to_list (Database.users db)).

(** Modelled from the spec: the identifier the store gives the next User,
    one above the greatest in use. *)
Definition next_user_id (db : Database.t) : Z :=
  1 + map_fold (fun k _ acc => Z.max k acc) 0 (Database.users db).

(** Modelled from the spec: [Database.create_user] is missing.  A User is
    "created on enrollment start" with an identifier, the display name,
    the employee code, the active flag set and the creation time. *)
Definition create_user (now : Database.datetime) (name employee_code : string)
    (db : Database.t) : Database.User * Database.t :=
  let user :=
    {| Database.User_id := next_user_id db;
       Database.name := name;
       Database.employee_code := employee_code;
       Database.active := true;
       Database.created_at := now |} in
  (user,
   {| Database.users := <[Database.User_id user := user]> (Database.users db);
      Database.templates := Database.templates db;
      Database.punches := Database.punches db |}).

Record EnrollResponse := {
  enroll_success : bool;
  enroll_user_id : option Z;
  enroll_message : string
}.

Inductive enroll_reply :=
| EnrollException (status_code : Z)
| EnrollReply (r : EnrollResponse).

(** [start_enrollment], on the token store and the store of the users;
    [now] is the time the store reads when it creates the user.  The calls
    to the store are total here, so the closing [except Exception] has
    nothing to catch. *)
Definition start_enrollment (active_tokens : gmap string Database.datetime)
    (now : Database.datetime) (name employee_code token : string)
    (db : Database.t) : enroll_reply * Database.t :=
  if negb (Admin.verify_token active_tokens token)
  then (EnrollException 401, db)
  else
    match get_user_by_code employee_code db with
    | Some existing =>
        (EnrollReply {| enroll_success := false; enroll_user_id := None;
                        enroll_message :=
                          "Employee code " +:+ employee_code +:+
                          " already exists" |},
         db)
    | None =>
        let '(user, db') := create_user now name employee_code db in
        (EnrollReply {| enroll_success := true;
                        enroll_user_id := Some (Database.User_id user);
                        enroll_message :=
                          "User created, ready for fingerprint capture" |},
         db')
    end.

(** No two Users of the store carry the same employee code. *)
Definition codes_unique (db : Database.t) : Prop :=
  ∀ i j u v,
    Database.users db !! i = Some u → Database.users db !! j = Some v →
    Database.employee_code u = Database.employee_code v → i = j.

End Directory.

(** ** checador/fingerprint.py: the calls to the NBIS tools *)

Module Nbis.

(** A line of a text file, as the code points of its characters. *)
Definition line : Type := list N.

(** [str.isspace] on one character. *)
Definition isspace (c : N) : bool :=
  ((9 <=? c) && (c <=? 13) || (28 <=? c) && (c <=? 32)
   || (c =? 133) || (c =? 160) || (c =? 5760)
   || (8192 <=? c) && (c <=? 8202)
   || (c =? 8232) || (c =? 8233) || (c =? 8239) || (c =? 8287)
   || (c =? 12288))%N.

Fixpoint lstrip (s : line) : line :=
  match s with
  | c :: rest => if isspace c then lstrip rest else s
  | [] => []
  end.

Definition rstrip (s : line) : line := reverse (lstrip (reverse s)).

(** [str.strip()]. *)
Definition strip (s : line) : line := rstrip (lstrip s).

(** [line.startswith('#')]. *)
Definition startswith_hash (s : line) : bool :=
  match s with
  | c :: _ => (c =? 35)%N
  | [] => false
  end.

(** The condition of the list comprehension in [_calculate_quality]:
    [line.strip() and not line.startswith('#')]. *)
Definition is_minutia (s : line) : bool :=
  match strip s with
  | [] => false
  | _ => negb (startswith_hash s)
  end.

(** [_calculate_quality] on the lines the file gives, [None] when opening
    or reading it raises. *)
Definition _calculate_quality (file : option (list line)) : Z :=
  match file with
  | Some lines => Z.of_nat (length (filter (fun s => is_minutia s = true) lines))
  | None => 0
  end.

(** How [subprocess.run] ends. *)
Inductive process :=
| Completed (returncode : Z) (stdout stderr : string)
| TimeoutExpired
| OtherError (e : string).

Section Tools.

Variable config : Config.t.
(** [subprocess.run(cmd, ..., timeout=seconds)]. *)
Variable run : list string -> Z -> process.
(** [Path.with_suffix], [None] when it raises. *)
Variable with_suffix : string -> string -> option string.
(** [Path.exists], once the tool has run. *)
Variable path_exists : string -> bool.
(** The lines of a text file, [None] when it cannot be read. *)
Variable read_lines : string -> option (list line).
(** [int(text.strip())], [None] when it raises [ValueError]. *)
Variable int_of_output : string -> option Z.

Definition extract_features (image_path : string)
    : bool * option string * Z :=
  match with_suffix image_path "" with
  | None => (false, None, 0)
  | Some output_base =>
      match with_suffix output_base ".xyt" with
      | None => (false, None, 0)
      | Some xyt_path =>
          let cmd :=
            [Config.nbis_mindtct (Config.fingerprint config);
             image_path; output_base] in
          match run cmd 30 with
          | TimeoutExpired => (false, None, 0)
          | OtherError e => (false, None, 0)
          | Completed returncode stdout stderr =>
              if negb (returncode =? 0) then (false, None, 0)
              else if negb (path_exists xyt_path) then (false, None, 0)
              else
                let quality := _calculate_quality (read_lines xyt_path) in
                (true, Some xyt_path, quality)
          end
      end
  end.

(** What a successful extraction went through: the two paths were built,
    mindtct exited with 0 on the image and the output base, and a file
    is there at the path built with the suffix [.xyt].  That path is the
    output base with [.xyt] added only when the output base has no suffix
    of its own; [extract_features] does not compare the two. *)
Definition extracted (image_path xyt_path : string) : Prop :=
  ∃ output_base stdout stderr,
    with_suffix image_path "" = Some output_base
    ∧ with_suffix output_base ".xyt" = Some xyt_path
    ∧ run [Config.nbis_mindtct (Config.fingerprint config);
           image_path; output_base] 30
      = Completed 0 stdout stderr
    ∧ path_exists xyt_path = true.

Definition match_fingerprints (probe_xyt gallery_xyt : string) : option Z :=
  let cmd :=
    [Config.nbis_bozorth3 (Config.fingerprint config);
     probe_xyt; gallery_xyt] in
  match run cmd 10 with
  | TimeoutExpired => None
  | OtherError e => None
  | Completed returncode stdout stderr =>
      if negb (returncode =? 0) then None
      else int_of_output stdout
  end.

(** [identify] as the class has it, on its own [match_fingerprints]. *)
Definition identify (probe_xyt : string) (gallery_templates : list (Z * string))
    : option (option Z * Z) :=
  Fingerprint.identify match_fingerprints config probe_xyt gallery_templates.

End Tools.

End Nbis.

(** ** checador/camera.py and checador/api/calibration.py *)

Module Camera.

(** [CameraConfig] of [config.py]. *)
Record CameraConfig := {
  device : string;
  width : Z;
  height : Z;
  fps : Z;
  roi_x : Z;
  roi_y : Z;
  roi_width : Z;
  roi_height : Z
}.

Definition default_camera : CameraConfig :=
  {| device := "/dev/video0"; width := 640; height := 480; fps := 30;
     roi_x := 0; roi_y := 0; roi_width := 640; roi_height := 480 |}.

(** A frame: its first two dimensions, as [shape[:2]] gives them, and its
    rows of pixels. *)
Record ndarray (A : Type) := {
  shape0 : Z;
  shape1 : Z;
  rows : list (list A)
}.
Arguments shape0 {A} _.
Arguments shape1 {A} _.
Arguments rows {A} _.

(** The frame holds [shape0] rows of [shape1] pixels. *)
Definition well_shaped {A} (frame : ndarray A) : Prop :=
  Z.of_nat (length (rows frame)) = shape0 frame
  ∧ 0 ≤ shape1 frame
  ∧ Forall (fun row => Z.of_nat (length row) = shape1 frame) (rows frame).

(** Where a slice bound lands in a sequence of length [len]: a negative
    bound counts from the end, and the result is cut to [0, len]. *)
Definition adjust (len i : Z) : Z :=
  if i <? 0 then Z.max (i + len) 0 else Z.min i len.

(** [l[start:stop]]. *)
Definition slice {A} (l : list A) (start stop : Z) : list A :=
  let a := adjust (Z.of_nat (length l)) start in
  let b := adjust (Z.of_nat (length l)) stop in
  take (Z.to_nat (b - a)) (drop (Z.to_nat a) l).

(** The length of [start:stop] in a dimension of length [len]. *)
Definition slice_length (len start stop : Z) : Z :=
  Z.max 0 (adjust len stop - adjust len start).

(** [frame[y0:y1, x0:x1]]. *)
Definition crop {A} (frame : ndarray A) (y0 y1 x0 x1 : Z) : ndarray A :=
  {| shape0 := slice_length (shape0 frame) y0 y1;
     shape1 := slice_length (shape1 frame) x0 x1;
     rows := (fun row => slice row x0 x1) <$> slice (rows frame) y0 y1 |}.

(** The pixel in row [i] and column [j], if the frame has one there. *)
Definition pixel {A} (frame : ndarray A) (i j : Z) : option A :=
  if (i <? 0) || (j <? 0) then None
  else rows frame !! Z.to_nat i ≫= fun row => row !! Z.to_nat j.

(** The test of [capture_roi] that sends it to the full frame. *)
Definition out_of_bounds {A} (camera : CameraConfig) (frame : ndarray A)
    : bool :=
  let x := roi_x camera in
  let y := roi_y camera in
  let w := roi_width camera in
  let h := roi_height camera in
  (x <? 0) || (y <? 0) || (x + w >? shape1 frame) || (y + h >? shape0 frame).

(** [capture_roi], on what [capture_frame] gives. *)
Definition capture_roi {A} (camera : CameraConfig)
    (capture_frame : option (ndarray A)) : option (ndarray A) :=
  match capture_frame with
  | None => None
  | Some frame =>
      let x := roi_x camera in
      let y := roi_y camera in
      let w := roi_width camera in
      let h := roi_height camera in
      let height := shape0 frame in
      let width := shape1 frame in
      if (x <? 0) || (y <? 0) || (x + w >? width) || (y + h >? height)
      then Some frame
      else Some (crop frame y (y + h) x (x + w))
  end.

(** The dictionary [test_camera] returns. *)
Record diagnostics := {
  d_device : string;
  accessible : bool;
  opened : bool;
  frame_captured : bool;
  roi_valid : bool;
  resolution : option string;
  error : option string
}.

(** [test_camera], on whether the device path exists, whether [open]
    succeeds and what [capture_frame] gives. *)
Definition test_camera {A} (camera : CameraConfig) (device_exists : bool)
    (open_ok : bool) (capture_frame : option (ndarray A)) : diagnostics :=
  let result :=
    {| d_device := device camera; accessible := false; opened := false;
       frame_captured := false; roi_valid := false; resolution := None;
       error := None |} in
  if negb device_exists then
    {| d_device := d_device result; accessible := false; opened := false;
       frame_captured := false; roi_valid := false; resolution := None;
       error := Some ("Device not found: " +:+ device camera) |}
  else if negb open_ok then
    {| d_device := d_device result; accessible := true; opened := false;
       frame_captured := false; roi_valid := false; resolution := None;
       error := Some "Failed to open camera" |}
  else
    match capture_frame with
    | None =>
        {| d_device := d_device result; accessible := true; opened := true;
           frame_captured := false; roi_valid := false; resolution := None;
           error := Some "Failed to capture frame" |}
    | Some frame =>
        let res := str_of_int (shape1 frame) +:+ "x" +:+
                   str_of_int (shape0 frame) in
        let x := roi_x camera in
        let y := roi_y camera in
        let w := roi_width camera in
        let h := roi_height camera in
        if (x >=? 0) && (y >=? 0) && (x + w <=? shape1 frame)
           && (y + h <=? shape0 frame)
        then
          {| d_device := d_device result; accessible := true; opened := true;
             frame_captured := true; roi_valid := true;
             resolution := Some res; error := None |}
        else
          {| d_device := d_device result; accessible := true; opened := true;
             frame_captured := true; roi_valid := false;
             resolution := Some res;
             error := Some ("ROI out of bounds: (" +:+ str_of_int x +:+ "," +:+
                            str_of_int y +:+ "," +:+ str_of_int w +:+ "," +:+
                            str_of_int h +:+ ") for " +:+ res) |}
    end.

(** [ROIRequest] of [calibration.py]. *)
Record ROIRequest := {
  r_x : Z;
  r_y : Z;
  r_width : Z;
  r_height : Z
}.

(** [set_roi]: the camera settings it leaves in the configuration. *)
Definition set_roi (roi : ROIRequest) (camera : CameraConfig) : CameraConfig :=
  {| device := device camera; width := width camera; height := height camera;
     fps := fps camera;
     roi_x := r_x roi; roi_y := r_y roi;
     roi_width := r_width roi; roi_height := r_height roi |}.

End Camera.

(** ** pathlib: [PurePosixPath.with_suffix]

    On a path string as [str] gives it: no separator doubled or at the
    end, and not the path ["."]. *)

Module Pathlib.

(** [s.rfind(c)]: the index of the last [c] in [s]. *)
Fixpoint rfind (c : ascii) (s : string) : option nat :=
  match s with
  | EmptyString => None
  | String a rest =>
      match rfind c rest with
      | Some i => Some (S i)
      | None => if Ascii.eqb a c then Some O else None
      end
  end.

(** The final component of a path. *)
Definition name (path : string) : string :=
  match rfind "/" path with
  | Some i => substring (S i) (String.length path - S i) path
  | None => path
  end.

(** The path up to its final component, separator included. *)
Definition parent (path : string) : string :=
  match rfind "/" path with
  | Some i => substring 0 (S i) path
  | None => ""
  end.

(** The last dotted part of the name, when its dot is neither the first
    nor the last character of the name. *)
Definition suffix (path : string) : string :=
  let name := name path in
  match rfind "." name with
  | Some i =>
      if (0 <? i)%nat && (i <? String.length name - 1)%nat
      then substring i (String.length name - i) name
      else ""
  | None => ""
  end.

(** [path.with_suffix(suffix)], [None] when it raises [ValueError]. *)
Definition with_suffix (path suffix' : string) : option string :=
  if bool_decide (is_Some (rfind "/" suffix')) then None
  else if (negb (String.eqb suffix' "") && negb (String.prefix "." suffix'))
          || String.eqb suffix' "."
  then None
  else
    let name := name path in
    if String.eqb name "" then None
    else
      let old_suffix := suffix path in
      Some (parent path
            +:+ substring 0 (String.length name - String.length old_suffix)
                          name
            +:+ suffix').

End Pathlib.

(** ** More concrete inputs *)

Module Cases.

(** The cycle over [pending_db] that the endpoint accepts. *)
Definition accepted_run : bool * Database.t * list Effects.event :=
  Sync.sync_now Examples.sync_config Examples.accept_all Examples.pending_db.

Definition mixed_cycles : list Sync.endpoint :=
  [Examples.reject_all; Examples.unreachable; Examples.accept_all].

Definition worker_calls : list SyncStatus.worker_call :=
  [SyncStatus.CallStart; SyncStatus.CallStart; SyncStatus.CallStop;
   SyncStatus.CallStart].

Definition password_ok (password : string) : bool :=
  bool_decide (password = "s3cret").

(** mindtct and bozorth3 at work: mindtct leaves a minutiae file with two
    minutiae lines, a comment and a blank line; bozorth3 prints 42. *)
Definition run_tools (cmd : list string) (timeout : Z) : Nbis.process :=
  match cmd with
  | tool :: _ =>
      if bool_decide (tool = "/usr/local/bin/mindtct")
      then Nbis.Completed 0 "" ""
      else Nbis.Completed 0 "42" ""
  | [] => Nbis.OtherError "no command"
  end.

Definition with_suffix (path suffix : string) : option string :=
  Pathlib.with_suffix path suffix.

Definition minutiae_file : list Nbis.line :=
  [ [35; 32; 120; 10]; [49; 50; 32; 51; 52; 32; 53; 10]; [10];
    [55; 32; 56; 32; 57; 10] ]%N.

Definition read_lines (path : string) : option (list Nbis.line) :=
  Some minutiae_file.

Definition int_of_output (text : string) : option Z :=
  if bool_decide (text = "42") then Some 42 else None.

(** A configuration that accepts two minutiae. *)
Definition lenient : Config.t :=
  {| Config.app := Config.app Config.default;
     Config.fingerprint :=
       {| Config.nbis_mindtct := "/usr/local/bin/mindtct";
          Config.nbis_bozorth3 := "/usr/local/bin/bozorth3";
          Config.match_threshold := 40;
          Config.enrollment_samples := 3;
          Config.min_quality_score := 2 |};
     Config.server := Config.server Config.default;
     Config.template_dir := Config.template_dir Config.default |}.

Definition file_exists (path : string) : bool := true.

(** A directory in which only a minutiae file of an earlier day is left. *)
Definition stale_exists (path : string) : bool :=
  bool_decide (path = "/t/A.xyt").

Definition extractor (image_path : string) : bool * option string * Z :=
  Nbis.extract_features lenient run_tools with_suffix file_exists
                        read_lines image_path.

(** The first sample of user 1 under [lenient], through [extractor]. *)
Definition extracted_run : Admin.reply * Database.t * list Effects.event :=
  Admin.capture_sample lenient Examples.joinpath Examples.tokens
                       Examples.camera_ok extractor Examples.now 1 1 "tok"
                       (Examples.db_with []).

(** The enrollment of a second user in a store that holds user 1. *)
Definition enrolled : Directory.enroll_reply * Database.t :=
  Directory.start_enrollment Examples.tokens Examples.stamp "Bea" "B200" "tok"
                             (Examples.db_with []).

Definition bea : Database.User :=
  {| Database.User_id := 2; Database.name := "Bea";
     Database.employee_code := "B200"; Database.active := true;
     Database.created_at := Examples.stamp |}.

(** A frame of three rows and four columns, and regions of it. *)
Definition frame : Camera.ndarray Z :=
  {| Camera.shape0 := 3; Camera.shape1 := 4;
     Camera.rows := [[11; 12; 13; 14]; [21; 22; 23; 24]; [31; 32; 33; 34]] |}.

Definition camera_with (x y w h : Z) : Camera.CameraConfig :=
  Camera.set_roi {| Camera.r_x := x; Camera.r_y := y;
                    Camera.r_width := w; Camera.r_height := h |}
                 Camera.default_camera.

End Cases.

(** * Properties *)

(** ** Identification *)

Module IdentifyFacts.
Import Fingerprint Policy.

Lemma foldr_max_init (a b : Z) (l : list Z) :
  foldr Z.max (Z.max a b) l = Z.max a (foldr Z.max b l).
Proof. induction l as [|x l IH]; simpl; [reflexivity|rewrite IH; lia]. Qed.

Lemma max_score_lower_bound (l : list Z) : 0 ≤ max_score l.
Proof. unfold max_score. induction l; simpl; lia. Qed.

Lemma max_score_upper_bound (l : list Z) (s : Z) : s ∈ l → s ≤ max_score l.
Proof.
  unfold max_score. induction 1 as [x l|x y l _ IH]; simpl; lia.
Qed.

Lemma max_score_of_greatest (m : Z) (l : list Z) :
  is_max_score m l → 0 ≤ m → max_score l = m.
Proof.
  intros [Hin Hub] Hm. unfold max_score.
  assert (Hle : foldr Z.max 0 l ≤ m).
  { clear Hin. induction l as [|x l IH]; simpl; [lia|].
    assert (x ≤ m) by (apply Hub; left).
    assert (foldr Z.max 0 l ≤ m) by (apply IH; intros; apply Hub; right; done).
    lia. }
  pose proof (max_score_upper_bound l m Hin) as Hge. unfold max_score in Hge. lia.
Qed.

Section Scan.

Variable match_fingerprints : string -> string -> option Z.
Variable config : Config.t.
Variable probe_xyt : string.

Local Abbreviation scan := (Fingerprint.scan match_fingerprints probe_xyt).
Local Abbreviation best_of := (Fingerprint.best_of match_fingerprints probe_xyt).
Local Abbreviation scores := (Fingerprint.scores match_fingerprints probe_xyt).
Local Abbreviation succeeded := (Fingerprint.succeeded match_fingerprints probe_xyt).
Local Abbreviation identify :=
  (Fingerprint.identify match_fingerprints config probe_xyt).
Local Abbreviation identify_logged :=
  (Fingerprint.identify_logged match_fingerprints config probe_xyt).
Local Abbreviation threshold := (Config.match_threshold (Config.fingerprint config)).

Lemma scores_cons tid path rest :
  scores ((tid, path) :: rest) =
  match match_fingerprints probe_xyt path with
  | Some s => s :: scores rest
  | None => scores rest
  end.
Proof.
  unfold Fingerprint.scores. simpl.
  destruct (match_fingerprints _ _); reflexivity.
Qed.

Lemma scores_app pre post : scores (pre ++ post) = scores pre ++ scores post.
Proof. apply omap_app. Qed.

(** The running best score is the greatest of its start and the scores. *)
Lemma scan_best_score gallery best tid :
  fst (scan gallery best tid) = foldr Z.max best (scores gallery).
Proof.
  revert best tid.
  induction gallery as [|[id path] rest IH]; intros best tid.
  - reflexivity.
  - rewrite scores_cons. simpl.
    destruct (match_fingerprints probe_xyt path) as [s|]; [|apply IH].
    destruct (Z.gtb_spec s best) as [Hgt|Hle]; rewrite IH; simpl.
    + replace s with (Z.max s best) at 1 by lia. apply foldr_max_init.
    + rewrite <- foldr_max_init. f_equal. lia.
Qed.

Lemma best_of_max_score gallery :
  fst (best_of gallery) = max_score (scores gallery).
Proof. apply scan_best_score. Qed.

(** Where the running best template comes from: either no score
    exceeded the start, or the winner is the first template, in
    gallery order, that reaches the final best score. *)
Lemma scan_winner gallery best tid best' tid' :
  scan gallery best tid = (best', tid') →
  (best' = best ∧ tid' = tid ∧ Forall (fun s => s ≤ best) (scores gallery))
  ∨ (best < best' ∧
     ∃ pre id path post,
       gallery = pre ++ (id, path) :: post ∧ tid' = Some id ∧
       match_fingerprints probe_xyt path = Some best' ∧
       Forall (fun s => s < best') (scores pre) ∧
       Forall (fun s => s ≤ best') (scores post)).
Proof.
  revert best tid.
  induction gallery as [|[id path] rest IH]; intros best tid Hscan.
  - simpl in Hscan. inversion Hscan; subst. left. split_and!; try done.
  - rewrite scores_cons. simpl in Hscan.
    destruct (match_fingerprints probe_xyt path) as [s|] eqn:Hs.
    + destruct (Z.gtb_spec s best) as [Hgt|Hle].
      * right.
        destruct (IH _ _ Hscan)
          as [(-> & -> & Hall)
             |(Hlt & pre & i & p & post & -> & -> & Hp & Hpre & Hpost)].
        -- split; [lia|]. exists [], id, path, rest.
           split_and!; try done.
        -- split; [lia|]. exists ((id, path) :: pre), i, p, post.
           split_and!; try done.
           rewrite scores_cons, Hs. constructor; [lia|done].
      * destruct (IH _ _ Hscan)
          as [(-> & -> & Hall)
             |(Hlt & pre & i & p & post & -> & -> & Hp & Hpre & Hpost)].
        -- left. split_and!; try done. constructor; done.
        -- right. split; [done|]. exists ((id, path) :: pre), i, p, post.
           split_and!; try done.
           rewrite scores_cons, Hs. constructor; [lia|done].
    + destruct (IH _ _ Hscan)
        as [(-> & -> & Hall)
           |(Hlt & pre & i & p & post & -> & -> & Hp & Hpre & Hpost)].
      * left. done.
      * right. split; [done|]. exists ((id, path) :: pre), i, p, post.
        split_and!; try done.
        rewrite scores_cons, Hs. done.
Qed.

(** Templates whose matcher call fails do not change the scan. *)
Lemma scan_succeeded gallery best tid :
  scan (succeeded gallery) best tid = scan gallery best tid.
Proof.
  revert best tid.
  induction gallery as [|[id path] rest IH]; intros best tid; [reflexivity|].
  unfold Fingerprint.succeeded in *. rewrite filter_cons. simpl.
  destruct (match_fingerprints probe_xyt path) as [s|] eqn:Hs.
  - rewrite decide_True by eauto. simpl. rewrite Hs.
    destruct (s >? best); apply IH.
  - rewrite decide_False by (intros [? ?]; done). apply IH.
Qed.

Lemma identify_unfold gallery :
  identify_logged gallery =
  if fst (best_of gallery) >=? threshold
  then (Some (snd (best_of gallery), fst (best_of gallery)),
        MatchFound (snd (best_of gallery)) (fst (best_of gallery)))
  else (None, NoMatchFound (fst (best_of gallery)) threshold).
Proof.
  unfold Fingerprint.identify_logged.
  destruct (Fingerprint.best_of _ _ _) as [b t]. reflexivity.
Qed.



(** C10.  The best score starts at 0 and is replaced only by a
    strictly greater score: the reported best score is never below 0,
    a returned template scored more than 0, a scan in which no matcher
    call succeeds (the empty gallery among them) returns a match
    without template, [(None, 0)], when the threshold is at most 0, and
    the empty gallery gives no match when the threshold is above 0. *)
Theorem identify_best_score_floor gallery :
  0 ≤ fst (best_of gallery)
  ∧ (∀ tid s, identify gallery = Some (Some tid, s) →
       0 < s ∧ ∃ path, (tid, path) ∈ gallery ∧
                       match_fingerprints probe_xyt path = Some s)
  ∧ (Forall (fun t => match_fingerprints probe_xyt (snd t) = None) gallery →
     threshold ≤ 0 →
     identify_logged gallery = (Some (None, 0), MatchFound None 0))
  ∧ (0 < threshold →
     identify_logged [] = (None, NoMatchFound 0 threshold)).
Proof.
  split_and!.
  - rewrite best_of_max_score. apply max_score_lower_bound.
  - intros tid s Hid. unfold Fingerprint.identify in Hid.
    rewrite identify_unfold in Hid.
    destruct (best_of gallery) as [b t] eqn:Hscan. simpl in Hid.
    destruct (b >=? threshold); simpl in Hid; [|done].
    injection Hid as -> ->.
    destruct (scan_winner _ _ _ _ _ Hscan)
      as [(_ & Hnone & _)|(Hlt & pre & i & p & post & -> & Hi & Hp & _ & _)];
      [done|].
    injection Hi as <-. split; [done|]. exists p. split; [|done].
    apply elem_of_app. right. left.
  - intros Hfail Hthr.
    assert (Hscan : best_of gallery = (0, None)).
    { unfold Fingerprint.best_of. generalize 0 (@None Z).
      induction Hfail as [|[id path] rest Hnone _ IH]; intros b t;
        [done|]. simpl in *. rewrite Hnone. apply IH. }
    rewrite identify_unfold, Hscan. simpl.
    destruct (Z.geb_spec 0 threshold); [done|lia].
  - intros Hthr. rewrite identify_unfold. simpl.
    destruct (Z.geb_spec 0 threshold); [lia|done].
Qed.

(** C2, as the code has it.  When the maximum score is above 0 and
    reaches the threshold, the winner is the first template in gallery
    order that yields the maximum: every template before it scores
    strictly less, and those after it score at most as much. *)
Theorem identify_first_maximum_wins gallery :
  0 < max_score (scores gallery) →
  threshold ≤ max_score (scores gallery) →
  ∃ pre tid path post,
    gallery = pre ++ (tid, path) :: post
    ∧ identify gallery = Some (Some tid, max_score (scores gallery))
    ∧ match_fingerprints probe_xyt path = Some (max_score (scores gallery))
    ∧ Forall (fun s => s < max_score (scores gallery)) (scores pre)
    ∧ Forall (fun s => s ≤ max_score (scores gallery)) (scores post).
Proof.
  intros Hpos Hthr. unfold Fingerprint.identify. rewrite identify_unfold.
  pose proof (best_of_max_score gallery) as Hbest.
  destruct (best_of gallery) as [b t] eqn:Hscan. simpl in *. subst b.
  destruct (scan_winner _ _ _ _ _ Hscan)
    as [(Hb & _ & _)|(_ & pre & i & p & post & -> & -> & Hp & Hpre & Hpost)];
    [lia|].
  exists pre, i, p, post.
  destruct (Z.geb_spec (max_score (scores (pre ++ (i, p) :: post))) threshold);
    [|lia].
  split_and!; done.
Qed.

End Scan.


(** C10 on concrete scans: with the threshold 0 a gallery on which every
    call fails gives [(None, 0)], and with the threshold 40 the empty
    gallery gives no match. *)
Lemma identify_best_score_floor_witness :
  (Forall (fun t => Examples.matcher "probe.xyt" (snd t) = None)
          Examples.unmatched_gallery
   ∧ Config.match_threshold (Config.fingerprint (Examples.with_threshold 0)) ≤ 0
   ∧ Fingerprint.identify_logged Examples.matcher (Examples.with_threshold 0)
                                 "probe.xyt" Examples.unmatched_gallery
     = (Some (None, 0), MatchFound None 0))
  ∧ (0 < Config.match_threshold (Config.fingerprint Config.default)
     ∧ Fingerprint.identify_logged Examples.matcher Config.default
                                   "probe.xyt" []
       = (None, NoMatchFound 0 40)).
Proof.
  assert (Hfail : Forall (fun t => Examples.matcher "probe.xyt" (snd t) = None)
                         Examples.unmatched_gallery)
    by (repeat constructor).
  split.
  - split; [exact Hfail|]. split; [simpl; lia|].
    apply (proj1 (proj2 (proj2 (identify_best_score_floor
                                  Examples.matcher (Examples.with_threshold 0)
                                  "probe.xyt" Examples.unmatched_gallery))));
      [exact Hfail|simpl; lia].
  - split; [simpl; lia|].
    apply (proj2 (proj2 (proj2 (identify_best_score_floor
                                  Examples.matcher Config.default
                                  "probe.xyt" []))));
      simpl; lia.
Defined.

(** The threshold is met by a maximum equal to it, and missed by one
    below it. *)
Example identify_at_threshold :
  Fingerprint.identify Examples.matcher (Examples.with_threshold 42)
                       "probe.xyt" Examples.u_gallery
  = Some (Some 1, 42)
  ∧ Fingerprint.identify_logged Examples.matcher (Examples.with_threshold 43)
                                "probe.xyt" Examples.u_gallery
    = (None, NoMatchFound 42 43).
Proof. split; reflexivity. Qed.

(** A template that scores below 0 is not selected. *)
Example identify_negative_score :
  Fingerprint.identify Examples.matcher (Examples.with_threshold 0)
                       "probe.xyt" Examples.negative_gallery
  = Some (None, 0).
Proof. reflexivity. Qed.


(** C2 fails as stated.  Templates 1 and 2 both score the maximum 50;
    the owner of Template 2 has more enrolled Templates, so the rule of
    the spec names Template 2, but [identify] returns Template 1, the
    first in the gallery; on the reversed gallery it returns Template 2. *)
Lemma identify_tie_break_counterexample :
  Fingerprint.identify Examples.matcher Config.default "probe.xyt"
                       Examples.tie_gallery
    = Some (Some 1, 50)
  ∧ spec_winner Examples.tie_db
                (scored Examples.matcher "probe.xyt" Examples.tie_gallery)
    = Some (2, 50)
  ∧ (enrolled_count Examples.tie_db 1 < enrolled_count Examples.tie_db 2)%nat
  ∧ Fingerprint.identify Examples.matcher Config.default "probe.xyt"
                         (reverse Examples.tie_gallery)
    = Some (Some 2, 50).
Proof. split_and!; vm_compute; done. Qed.

(** C2 as the code has it, on the tied gallery: Template 1 wins because
    nothing before it reaches 50. *)
Lemma identify_first_maximum_wins_witness :
  0 < max_score (Fingerprint.scores Examples.matcher "probe.xyt"
                                    Examples.tie_gallery)
  ∧ 40 ≤ max_score (Fingerprint.scores Examples.matcher "probe.xyt"
                                       Examples.tie_gallery)
  ∧ ∃ pre tid path post,
      Examples.tie_gallery = pre ++ (tid, path) :: post
      ∧ Fingerprint.identify Examples.matcher Config.default "probe.xyt"
                             Examples.tie_gallery
        = Some (Some tid, 50)
      ∧ Examples.matcher "probe.xyt" path = Some 50
      ∧ Forall (fun s => s < 50)
               (Fingerprint.scores Examples.matcher "probe.xyt" pre)
      ∧ Forall (fun s => s ≤ 50)
               (Fingerprint.scores Examples.matcher "probe.xyt" post).
Proof.
  split; [vm_compute; reflexivity|].
  split; [vm_compute; discriminate|].
  apply (identify_first_maximum_wins Examples.matcher Config.default
                                     "probe.xyt" Examples.tie_gallery);
    [vm_compute; reflexivity|vm_compute; discriminate].
Defined.

End IdentifyFacts.

(** ** Enrollment *)

Module EnrollFacts.
Import Effects Admin.

Section CaptureSample.

Variable config : Config.t.
Variable joinpath : string -> string -> string.
Variable active_tokens : gmap string Database.datetime.
Variable capture_fingerprint : string -> bool * option string.
Variable extract_features : string -> bool * option string * Z.
Variable utcnow : string.

Local Abbreviation capture_sample :=
  (Admin.capture_sample config joinpath active_tokens capture_fingerprint
                        extract_features utcnow).
Local Abbreviation image_path_for := (Admin.image_path_for config joinpath utcnow).
Local Abbreviation min_quality_score :=
  (Config.min_quality_score (Config.fingerprint config)).
Local Abbreviation extraction_failed := Answers.extraction_failed.
Local Abbreviation low_quality := (Answers.low_quality config).
Local Abbreviation accepted := Answers.accepted.

(** [capture_sample] once the token is valid, the user is found and the
    camera has written the image. *)
Lemma capture_sample_extracted
    (user_id sample_number : Z) (token : string) (db : Database.t)
    (user : Database.User) (ok : bool) (xyt_path : option string) (q : Z) :
  verify_token active_tokens token = true →
  Database.get_user user_id db = Some user →
  fst (capture_fingerprint (image_path_for user sample_number)) = true →
  extract_features (image_path_for user sample_number) = (ok, xyt_path, q) →
  let image_path := image_path_for user sample_number in
  let tried := [GetUser user_id; CaptureFingerprint image_path;
                ExtractFeatures image_path] in
  capture_sample user_id sample_number token db =
  if negb ok then (Reply (extraction_failed sample_number), db, tried)
  else if q <? min_quality_score
  then (Reply (low_quality sample_number q), db, tried)
  else (Reply (accepted sample_number q),
        Database.add_template (Database.User_id user)
                              (str_of_path xyt_path) q db,
        tried ++ [AddTemplate (Database.User_id user)
                              (str_of_path xyt_path) q]).
Proof.
  intros Htok Huser Hcap Hext image_path tried. subst image_path tried.
  unfold Admin.capture_sample. rewrite Htok. simpl.
  unfold mbind, M_bind, Effects.get_user, read. rewrite Huser.
  unfold call.
  destruct (capture_fingerprint _) as [c e]. simpl in Hcap. subst c.
  simpl. rewrite Hext.
  destruct ok; simpl; [|reflexivity].
  destruct (q <? min_quality_score); reflexivity.
Qed.

Lemma templates_grow_ne (l : list Database.Template) (tpl : Database.Template) :
  l ≠ l ++ [tpl].
Proof.
  intros H. apply (f_equal length) in H. rewrite length_app in H.
  simpl in H. lia.
Qed.

(** C6.  For a sample that reaches feature extraction, a Template is
    persisted exactly when the extraction succeeds with a quality of at
    least [min_quality_score].  When the extraction fails the answer is
    "Feature extraction failed" and the store is as before; when the
    quality is below the minimum the answer is the low-quality
    rejection reporting the quality, and the store, with the Templates
    of every user, is as before. *)
Theorem capture_sample_quality_gate
    (user_id sample_number : Z) (token : string) (db : Database.t)
    (user : Database.User) (ok : bool) (xyt_path : option string) (q : Z) :
  verify_token active_tokens token = true →
  Database.get_user user_id db = Some user →
  fst (capture_fingerprint (image_path_for user sample_number)) = true →
  extract_features (image_path_for user sample_number) = (ok, xyt_path, q) →
  let r := capture_sample user_id sample_number token db in
  ((∃ tpl, Database.templates (store r) = Database.templates db ++ [tpl])
     ↔ ok = true ∧ min_quality_score ≤ q)
  ∧ (ok = false →
       value r = Reply (extraction_failed sample_number) ∧ store r = db)
  ∧ (ok = true → q < min_quality_score →
       value r = Reply (low_quality sample_number q) ∧ store r = db
       ∧ ∀ uid, Database.get_user_templates uid (store r)
                = Database.get_user_templates uid db)
  ∧ (ok = true → min_quality_score ≤ q →
       value r = Reply (accepted sample_number q)
       ∧ store r = Database.add_template (Database.User_id user)
                                         (str_of_path xyt_path) q db).
Proof.
  intros Htok Huser Hcap Hext r. subst r.
  rewrite (capture_sample_extracted _ _ _ _ _ _ _ _ Htok Huser Hcap Hext).
  destruct ok; simpl.
  - destruct (Z.ltb_spec q min_quality_score) as [Hlt|Hge];
      unfold value, store; simpl.
    + split_and!; try done; try lia.
      split; [intros [tpl H]; by apply templates_grow_ne in H|lia].
    + split_and!; try done; try lia.
      split; [done|intros _; eauto].
  - unfold value, store; simpl. split_and!; try done.
    split; [intros [tpl H]; by apply templates_grow_ne in H|intros [? _]; done].
Qed.

End CaptureSample.

(** C6 on the scenario of the spec, with the minimum quality 20: a
    sample of quality 15 is rejected and the store is as before. *)
Lemma capture_sample_quality_gate_witness :
  verify_token Examples.tokens "tok" = true
  ∧ Database.get_user 1 (Examples.db_with []) = Some Examples.user_a
  ∧ fst (Examples.camera_ok
           (Admin.image_path_for Config.default Examples.joinpath Examples.now
                                 Examples.user_a 1)) = true
  ∧ 15 < Config.min_quality_score (Config.fingerprint Config.default)
  ∧ value (Examples.sample_run 15)
    = Reply (Answers.low_quality Config.default 1 15)
  ∧ store (Examples.sample_run 15) = Examples.db_with []
  ∧ ∀ uid, Database.get_user_templates uid (store (Examples.sample_run 15))
           = Database.get_user_templates uid (Examples.db_with []).
Proof.
  assert (Htok : verify_token Examples.tokens "tok" = true)
    by (vm_compute; reflexivity).
  assert (Huser : Database.get_user 1 (Examples.db_with [])
                  = Some Examples.user_a)
    by (vm_compute; reflexivity).
  split; [exact Htok|]. split; [exact Huser|]. split; [reflexivity|].
  split; [simpl; lia|].
  apply (proj1 (proj2 (proj2
           (capture_sample_quality_gate
              Config.default Examples.joinpath Examples.tokens
              Examples.camera_ok (Examples.extractor 15) Examples.now 1 1 "tok"
              (Examples.db_with []) Examples.user_a true
              (Some "/var/lib/checador/templates/A123_1.xyt") 15
              Htok Huser eq_refl eq_refl))));
    [reflexivity|simpl; lia].
Defined.

(** A sample of quality 25 is stored as the first Template of the user. *)
Example capture_sample_accepts :
  value (Examples.sample_run 25) = Reply (Answers.accepted 1 25)
  ∧ Database.templates (store (Examples.sample_run 25))
    = [ {| Database.template_id := 1; Database.template_user_id := 1;
           Database.template_path := "/var/lib/checador/templates/A123_1.xyt";
           Database.quality := 25 |} ].
Proof. split; vm_compute; reflexivity. Qed.

End EnrollFacts.

(** ** Sync worker *)

Module SyncFacts.
Import Effects Sync Outbox.

Lemma with_punches_same (db : Database.t) :
  Database.with_punches (Database.punches db) db = db.
Proof. by destruct db. Qed.

Lemma with_errors_nil msg db : with_errors [] msg db = db.
Proof.
  unfold with_errors. rewrite <- (with_punches_same db) at 3. f_equal.
  rewrite <- (list_fmap_id (Database.punches db)) at 2.
  apply list_fmap_ext. intros _ p _. rewrite bool_decide_eq_false_2; [done|].
  apply not_elem_of_nil.
Qed.

Lemma with_errors_cons punch_id punch_ids msg db :
  with_errors punch_ids msg (Database.mark_punch_sync_error punch_id msg db)
  = with_errors (punch_id :: punch_ids) msg db.
Proof.
  unfold with_errors, Database.mark_punch_sync_error, Database.with_punches.
  simpl. f_equal. rewrite <- list_fmap_compose.
  apply list_fmap_ext. intros _ p _. simpl.
  destruct (bool_decide_reflect (Database.id p = punch_id)) as [->|Hne].
  - simpl. rewrite (bool_decide_eq_true_2 (_ ∈ _ :: _)) by left.
    by destruct (bool_decide _).
  - destruct (bool_decide_reflect (Database.id p ∈ punch_ids)) as [Hin|Hnin].
    + by rewrite bool_decide_eq_true_2 by (by right).
    + rewrite bool_decide_eq_false_2; [done|].
      intros [?|?]%elem_of_cons; done.
Qed.

Lemma prepare_spec punches db :
  prepare punches db =
  (resolved db punches, db, (fun p => GetUser (Database.user_id p)) <$> punches).
Proof.
  induction punches as [|p rest IH]; [reflexivity|].
  unfold resolved in *. simpl.
  unfold mbind, M_bind, Effects.get_user, read.
  destruct (Database.get_user (Database.user_id p) db) as [u|]; simpl.
  - unfold mbind, M_bind. rewrite IH. simpl. by rewrite app_nil_r.
  - rewrite IH. reflexivity.
Qed.

Lemma mark_errors_spec punches msg db :
  mark_errors punches msg db =
  (tt, with_errors (Database.id <$> punches) msg db,
   (fun p => MarkPunchSyncError (Database.id p) msg) <$> punches).
Proof.
  revert db. induction punches as [|p rest IH]; intros db; simpl.
  - by rewrite with_errors_nil.
  - unfold mbind, M_bind, Effects.mark_punch_sync_error, write.
    rewrite IH, with_errors_cons. reflexivity.
Qed.

Lemma sleeps_app tr1 tr2 : sleeps (tr1 ++ tr2) = sleeps tr1 ++ sleeps tr2.
Proof. apply omap_app. Qed.

Lemma posted_app tr1 tr2 : posted (tr1 ++ tr2) = posted tr1 ++ posted tr2.
Proof. apply omap_app. Qed.

Lemma sleeps_get_users (punches : list Database.Punch) :
  sleeps ((fun p => GetUser (Database.user_id p)) <$> punches) = [].
Proof. induction punches; [reflexivity|done]. Qed.

Lemma sleeps_reads config db punches : sleeps (reads config db punches) = [].
Proof.
  unfold reads. change (sleeps (?e :: ?l)) with (sleeps ([e] ++ l)).
  rewrite !sleeps_app, sleeps_get_users. reflexivity.
Qed.

Section Cycle.

Variable config : Config.t.
Variables str_raises sleep_raises : Z -> bool.
Variable float_pow_raises : Z -> Z -> bool.

Local Abbreviation sync_now := (Sync.sync_now config).
Local Abbreviation start := (Sync.start config).
Local Abbreviation _sync_loop :=
  (Sync._sync_loop config str_raises sleep_raises float_pow_raises).
Local Abbreviation cycle_sleeps :=
  (Outbox.cycle_sleeps config str_raises sleep_raises float_pow_raises).
Local Abbreviation answer := (Outbox.answer config).
Local Abbreviation reads := (Outbox.reads config).
Local Abbreviation interval :=
  (Config.sync_interval_seconds (Config.server config)).
Local Abbreviation max_attempts :=
  (Config.retry_max_attempts (Config.server config)).
Local Abbreviation base := (Config.retry_backoff_base (Config.server config)).

Lemma sync_now_disabled post db :
  Config.enabled (Config.server config) = false →
  sync_now post db = (true, db, []).
Proof. intros H. unfold Sync.sync_now. by rewrite H. Qed.

Lemma sync_now_no_url post db :
  Config.enabled (Config.server config) = true →
  Config.url (Config.server config) = "" →
  sync_now post db = (true, db, []).
Proof. intros H1 H2. unfold Sync.sync_now. by rewrite H1, H2. Qed.

Lemma sync_now_nothing post db :
  sync_ready config →
  Database.get_unsynced_punches 100 db = [] →
  sync_now post db = (true, db, [GetUnsyncedPunches 100]).
Proof.
  intros [H1 H2] Hnone. unfold Sync.sync_now. rewrite H1. simpl.
  rewrite bool_decide_eq_false_2 by done.
  unfold mbind, M_bind, Effects.get_unsynced_punches, read.
  by rewrite Hnone.
Qed.

(** A cycle that has punches to deliver, by the answer of the endpoint. *)
Lemma sync_now_cycle post db :
  sync_ready config →
  let punches := Database.get_unsynced_punches 100 db in
  punches ≠ [] →
  sync_now post db =
  match answer post db punches with
  | Raised e => (false, db, reads db punches)
  | Response status_code text =>
      if status_code =? 200 then
        (true, Database.mark_punches_synced (Database.id <$> punches) db,
         reads db punches ++ [MarkPunchesSynced (Database.id <$> punches)])
      else
        (false,
         with_errors (Database.id <$> punches)
                     (error_detail status_code text) db,
         reads db punches ++
           ((fun p => MarkPunchSyncError (Database.id p)
                                         (error_detail status_code text))
              <$> punches))
  end.
Proof.
  intros [H1 H2] punches Hsome. unfold Sync.sync_now. rewrite H1. simpl.
  rewrite bool_decide_eq_false_2 by done.
  unfold mbind, M_bind, Effects.get_unsynced_punches, read.
  fold punches. unfold Outbox.answer, Outbox.reads.
  destruct punches as [|p ps] eqn:Hp; [done|].
  rewrite prepare_spec. unfold http_post, call.
  fold (upload config db (p :: ps)) (headers config) (punches_url config).
  destruct (post _ _ _) as [status_code text|e].
  - destruct (status_code =? 200).
    + unfold Effects.mark_punches_synced, write. simpl.
      by rewrite <- ?app_assoc.
    + unfold mbind, M_bind. rewrite mark_errors_spec. simpl.
      by rewrite ?app_nil_r, <- ?app_assoc.
  - simpl. by rewrite ?app_nil_r.
Qed.

Lemma batch_in_store limit db p :
  p ∈ Database.get_unsynced_punches limit db → p ∈ Database.punches db.
Proof.
  unfold Database.get_unsynced_punches. intros Hin.
  apply elem_of_take in Hin as (i & Hi & _).
  apply list_elem_of_lookup_2 in Hi.
  by apply list_elem_of_filter in Hi as [_ ?].
Qed.

(** A cycle over an empty batch succeeds without the network and
    leaves the store as it was, whatever the configuration. *)
Lemma sync_now_empty post db :
  Database.get_unsynced_punches 100 db = [] →
  ∃ tr, sync_now post db = (true, db, tr) ∧ posted tr = [].
Proof.
  intros Hnone.
  destruct (Config.enabled (Config.server config)) eqn:Hen.
  - destruct (decide (Config.url (Config.server config) = "")) as [Hu|Hu].
    + exists []. by rewrite sync_now_no_url.
    + exists [GetUnsyncedPunches 100]. by rewrite sync_now_nothing.
  - exists []. by rewrite sync_now_disabled.
Qed.

(** One turn of the loop. *)
Lemma sync_loop_step post rest retry_count db :
  _sync_loop (post :: rest) retry_count db =
  let r := sync_now post db in
  let retry_count' :=
    if value r then 0 else Z.min (retry_count + 1) max_attempts in
  let next := _sync_loop rest retry_count' (store r) in
  (value next, store next,
   calls r ++ cycle_sleeps (value r) retry_count' ++ calls next).
Proof.
  simpl.
  unfold Outbox.cycle_sleeps, sleep_calls, Sync.sleep, on_exception,
    mbind, mret, M_bind, M_ret, call, value, store, calls.
  destruct (Sync.sync_now config post db) as [[success db'] tr].
  destruct success; cbn [fst snd].
  - destruct (sleep_raises interval); cbn [fst snd app];
      destruct (Sync._sync_loop _ _ _ _ rest _ db') as [[v db''] tr'];
      reflexivity.
  - destruct (pow _ _ _) as [[n|b e]|]; cbn [warning_raises];
      [destruct (str_raises n); [|destruct (sleep_raises n)]| |];
      cbn [fst snd app];
      destruct (Sync._sync_loop _ _ _ _ rest _ db') as [[v db''] tr'];
      reflexivity.
Qed.

(** The calls after a failure, when the power is an integer that can be
    written and slept. *)
Lemma cycle_sleeps_backoff (n : Z) :
  0 ≤ n →
  str_raises (base ^ n) = false → sleep_raises (base ^ n) = false →
  cycle_sleeps false n = [Sleep (Seconds (base ^ n))].
Proof.
  intros Hn Hstr Hsleep.
  unfold Outbox.cycle_sleeps, sleep_calls, pow, warning_raises.
  destruct (Z.leb_spec 0 n); [|lia]. by rewrite Hstr, Hsleep.
Qed.

(** The calls after a success, when the interval can be slept. *)
Lemma cycle_sleeps_interval (retry_count : Z) :
  sleep_raises interval = false →
  cycle_sleeps true retry_count = [Sleep (Seconds interval)].
Proof. intros Hfit. unfold Outbox.cycle_sleeps, sleep_calls. by rewrite Hfit. Qed.

Lemma retry_cap (retry_count : Z) (k : nat) :
  0 ≤ max_attempts →
  Z.min (Z.min (retry_count + 1) max_attempts + Z.of_nat k) max_attempts
  = Z.min (retry_count + Z.of_nat (S k)) max_attempts.
Proof. lia. Qed.

(** While the endpoint cannot be reached the sleeps grow as the powers
    of the base, up to the power of the cap. *)
Lemma sync_loop_network_down cycles retry_count db :
  sync_ready config →
  0 ≤ max_attempts → 0 ≤ retry_count →
  (∀ k, 0 ≤ k ≤ max_attempts →
        str_raises (base ^ k) = false ∧ sleep_raises (base ^ k) = false) →
  Database.get_unsynced_punches 100 db ≠ [] →
  Forall (fun post =>
            ∃ e, answer post db (Database.get_unsynced_punches 100 db)
                 = Raised e) cycles →
  sleeps (calls (_sync_loop cycles retry_count db)) =
  (fun k => Seconds (base ^ Z.min (retry_count + Z.of_nat k) max_attempts))
    <$> seq 1 (length cycles).
Proof.
  intros Hready Hmax Hrc Hfit Hsome Hdown. revert retry_count Hrc.
  induction Hdown as [|post rest [e He] _ IH]; intros retry_count Hrc;
    [reflexivity|].
  rewrite sync_loop_step.
  rewrite (sync_now_cycle post db Hready Hsome), He.
  cbv zeta. unfold value, store, calls in *. cbn [fst snd].
  destruct (Hfit (Z.min (retry_count + 1) max_attempts)) as [Hstr Hsleep];
    [lia|].
  rewrite cycle_sleeps_backoff by (done || lia).
  rewrite sleeps_app, sleeps_reads. cbn [app].
  change (sleeps (Sleep ?d :: ?l)) with (d :: sleeps l).
  rewrite IH by lia.
  cbn [length seq fmap list_fmap]. f_equal.
  rewrite <- (fmap_S_seq 1), <- list_fmap_compose.
  apply list_fmap_ext. intros _ k _. simpl. by rewrite retry_cap.
Qed.

(** C8.  With sync disabled, [start] leaves the worker as it is and
    creates no task, and [sync_now] returns success, leaves the store
    as it is and makes no call at all: no read or write of a Punch, no
    request.  A loop that ran all the same would only call
    [asyncio.sleep]: with the steady interval and, when that call
    raises, with the 60 seconds of the exception branch. *)
Theorem sync_disabled_touches_nothing :
  Config.enabled (Config.server config) = false →
  (∀ self, start self = self)
  ∧ (∀ post db, sync_now post db = (true, db, []))
  ∧ (∀ cycles retry_count db,
       store (_sync_loop cycles retry_count db) = db
       ∧ calls (_sync_loop cycles retry_count db)
         = concat (replicate (length cycles)
                     (sleep_calls sleep_raises (Seconds interval)))
       ∧ (sleep_raises interval = false →
          calls (_sync_loop cycles retry_count db)
          = replicate (length cycles) (Sleep (Seconds interval)))).
Proof.
  intros Hoff. split_and!.
  - intros self. unfold Sync.start. by rewrite Hoff.
  - intros post db. by apply sync_now_disabled.
  - induction cycles as [|post rest IH]; intros retry_count db; [done|].
    rewrite sync_loop_step, (sync_now_disabled post db Hoff).
    unfold value, store, calls in *. cbn [fst snd app length replicate concat].
    destruct (IH 0 db) as (-> & -> & Hfit). split_and!; [done|done|].
    intros Hi. rewrite cycle_sleeps_interval, <- (Hfit Hi) by done. done.
Qed.

(** C9.  When nothing waits for delivery, [sync_now] returns success,
    sends nothing and leaves the store as it was; so does a second
    call right after it. *)
Theorem sync_now_empty_idempotent post1 post2 db :
  Database.get_unsynced_punches 100 db = [] →
  let r1 := sync_now post1 db in
  let r2 := sync_now post2 (store r1) in
  value r1 = true ∧ store r1 = db ∧ posted (calls r1) = []
  ∧ value r2 = true ∧ store r2 = db ∧ posted (calls r2) = [].
Proof.
  intros Hnone r1 r2. subst r1 r2.
  destruct (sync_now_empty post1 db Hnone) as (tr1 & -> & Htr1).
  unfold value, store, calls. cbn [fst snd].
  destruct (sync_now_empty post2 db Hnone) as (tr2 & -> & Htr2).
  cbn [fst snd]. split_and!; done.
Qed.

(** On HTTP 200 the whole batch is marked synced, the punches left out
    of the upload among them. *)
Lemma sync_now_accepted post db text :
  sync_ready config →
  Database.get_unsynced_punches 100 db ≠ [] →
  answer post db (Database.get_unsynced_punches 100 db) = Response 200 text →
  let r := sync_now post db in
  value r = true
  ∧ posted (calls r) = [upload config db (Database.get_unsynced_punches 100 db)]
  ∧ store r = Database.mark_punches_synced
                (Database.id <$> Database.get_unsynced_punches 100 db) db
  ∧ ∀ p, p ∈ Database.get_unsynced_punches 100 db →
         Database.set_synced p ∈ Database.punches (store r).
Proof.
  intros Hready Hsome Hans r. subst r.
  rewrite (sync_now_cycle post db Hready Hsome), Hans. simpl.
  unfold value, store, calls. simpl. split_and!; try done.
  - unfold Outbox.reads.
    change (posted (?e :: ?l)) with (posted ([e] ++ l)).
    rewrite !posted_app. simpl.
    assert (Hget : ∀ l : list Database.Punch, 
               posted ((fun p => GetUser (Database.user_id p)) <$> l) = []).
    { induction l; [reflexivity|done]. }
    by rewrite Hget.
  - intros p Hp.
    apply list_elem_of_fmap. exists p. split; [|by eapply batch_in_store].
    rewrite bool_decide_eq_true_2; [done|].
    by apply list_elem_of_fmap_2.
Qed.

(** C3, as the code has it.  When the endpoint answers with a status
    other than 200 the cycle fails, every punch of the batch carries
    the status error and the detail "Server returned <status>: <body>",
    and no punch becomes synced.  When the transport raises, the cycle
    fails and the store is left as it was. *)
Theorem sync_now_failure post db :
  sync_ready config →
  Database.get_unsynced_punches 100 db ≠ [] →
  let punches := Database.get_unsynced_punches 100 db in
  let r := sync_now post db in
  (∀ status_code text,
     answer post db punches = Response status_code text →
     status_code ≠ 200 →
     value r = false
     ∧ store r = with_errors (Database.id <$> punches)
                             (error_detail status_code text) db
     ∧ (∀ p, p ∈ punches →
          Database.set_error (error_detail status_code text) p
          ∈ Database.punches (store r))
     ∧ (∀ q, q ∈ Database.punches (store r) →
          Database.is_synced q = true → q ∈ Database.punches db))
  ∧ (∀ e, answer post db punches = Raised e →
       value r = false ∧ store r = db).
Proof.
  intros Hready Hsome punches r. subst r.
  rewrite (sync_now_cycle post db Hready Hsome). fold punches. split.
  - intros status_code text -> Hcode.
    destruct (Z.eqb_spec status_code 200); [done|].
    unfold value, store. simpl. split_and!; try done.
    + intros p Hp. apply list_elem_of_fmap. exists p.
      split; [|by eapply batch_in_store].
      rewrite bool_decide_eq_true_2; [done|]. by apply list_elem_of_fmap_2.
    + intros q Hq Hsynced.
      apply list_elem_of_fmap in Hq as (q0 & -> & Hq0).
      by destruct (bool_decide _).
  - intros e ->. done.
Qed.

(** C5.  A cycle that succeeds sets the retry count to zero and sleeps
    the steady interval; a cycle that fails raises the retry count by
    one, up to [retry_max_attempts], and sleeps the base to the power
    of the new count.  While the endpoint cannot be reached the sleeps
    are therefore the successive powers of the base, up to the power of
    the cap.  This is for [retry_max_attempts] not negative and for
    delays that can be written in the log line and slept; a delay that
    cannot is replaced by the 60 seconds of the exception branch. *)
Theorem sync_loop_backoff :
  0 ≤ max_attempts →
  (∀ post rest retry_count db,
     value (sync_now post db) = true →
     sleep_raises interval = false →
     let next := _sync_loop rest 0 (store (sync_now post db)) in
     _sync_loop (post :: rest) retry_count db
     = (value next, store next,
        calls (sync_now post db) ++ Sleep (Seconds interval) :: calls next))
  ∧ (∀ post rest retry_count db,
       0 ≤ retry_count →
       value (sync_now post db) = false →
       let n := Z.min (retry_count + 1) max_attempts in
       let next := _sync_loop rest n (store (sync_now post db)) in
       str_raises (base ^ n) = false → sleep_raises (base ^ n) = false →
       0 ≤ n ≤ max_attempts
       ∧ _sync_loop (post :: rest) retry_count db
         = (value next, store next,
            calls (sync_now post db) ++ Sleep (Seconds (base ^ n))
              :: calls next))
  ∧ (∀ cycles retry_count db,
       sync_ready config → 0 ≤ retry_count →
       (∀ k, 0 ≤ k ≤ max_attempts →
             str_raises (base ^ k) = false
             ∧ sleep_raises (base ^ k) = false) →
       Database.get_unsynced_punches 100 db ≠ [] →
       Forall (fun post =>
                 ∃ e, answer post db (Database.get_unsynced_punches 100 db)
                      = Raised e) cycles →
       sleeps (calls (_sync_loop cycles retry_count db)) =
       (fun k => Seconds (base ^ Z.min (retry_count + Z.of_nat k)
                                       max_attempts))
         <$> seq 1 (length cycles)).
Proof.
  intros Hmax. split_and!.
  - intros post rest retry_count db Hok Hfit next. subst next.
    rewrite sync_loop_step. cbv zeta. rewrite Hok.
    by rewrite cycle_sleeps_interval.
  - intros post rest retry_count db Hrc Hfail n next Hstr Hsleep.
    subst n next.
    split; [lia|]. rewrite sync_loop_step. cbv zeta. rewrite Hfail.
    rewrite cycle_sleeps_backoff by (done || lia). done.
  - intros cycles retry_count db Hready Hrc Hfit Hsome Hdown.
    by apply sync_loop_network_down.
Qed.

End Cycle.

Lemma sync_config_ready : sync_ready Examples.sync_config.
Proof. split; [reflexivity|discriminate]. Qed.

(** C8 on the default configuration, which has sync disabled. *)
Lemma sync_disabled_touches_nothing_witness :
  Config.enabled (Config.server Config.default) = false
  ∧ Sync.start Config.default Examples.idle_worker = Examples.idle_worker
  ∧ Sync.sync_now Config.default Examples.accept_all Examples.pending_db
    = (true, Examples.pending_db, []).
Proof.
  split; [reflexivity|]. split.
  - apply (proj1 (sync_disabled_touches_nothing
                    Config.default Examples.str_raises Examples.sleep_raises
                    Examples.float_pow_raises eq_refl)).
  - apply (proj1 (proj2 (sync_disabled_touches_nothing
                           Config.default Examples.str_raises
                           Examples.sleep_raises Examples.float_pow_raises
                           eq_refl))).
Defined.

(** C9 on a store whose only punch is synced already. *)
Lemma sync_now_empty_idempotent_witness :
  Database.get_unsynced_punches 100 Examples.drained_db = []
  ∧ value Examples.drained_run = true
  ∧ store Examples.drained_run = Examples.drained_db
  ∧ posted (calls Examples.drained_run) = []
  ∧ value Examples.drained_rerun = true
  ∧ store Examples.drained_rerun = Examples.drained_db
  ∧ posted (calls Examples.drained_rerun) = [].
Proof.
  split; [reflexivity|].
  apply (sync_now_empty_idempotent Examples.sync_config Examples.unreachable
                                   Examples.unreachable Examples.drained_db).
  reflexivity.
Defined.

(** C1 fails on the code.  Punch 2 has no user in the store: it is left
    out of the upload, which carries the entry of punch 1 alone, and the
    endpoint answers 200; yet both punches are synced afterwards and
    nothing is left for the next cycle. *)
Theorem sync_now_marks_skipped_punch_synced :
  Database.id <$> Examples.orphan_batch = [1; 2]
  ∧ Database.id <$> included Examples.orphan_db Examples.orphan_batch = [1]
  ∧ value Examples.accepted_orphan_run = true
  ∧ (e_user_id <$> (posted (calls Examples.accepted_orphan_run) ≫= p_punches))
    = [1]
  ∧ ((fun p => (Database.id p, Database.status p))
       <$> Database.punches (store Examples.accepted_orphan_run))
    = [(1, Database.synced); (2, Database.synced)]
  ∧ Database.get_unsynced_punches 100 (store Examples.accepted_orphan_run)
    = [].
Proof. split_and!; vm_compute; reflexivity. Qed.

(** C3 fails as stated.  The transport raises while punch 1 waits: the
    cycle fails, but the punch keeps the status unsynced and carries no
    error detail. *)
Lemma sync_now_transport_error_counterexample :
  Database.id <$> Examples.pending_batch = [1]
  ∧ answer Examples.sync_config Examples.unreachable Examples.pending_db
           Examples.pending_batch
    = Raised "ConnectError"
  ∧ value Examples.unreachable_run = false
  ∧ ((fun p => (Database.id p, Database.status p, Database.sync_error p))
       <$> Database.punches (store Examples.unreachable_run))
    = [(1, Database.unsynced, None)].
Proof. split_and!; vm_compute; reflexivity. Qed.

(** C3 as the code has it, on the scenario of the spec: the endpoint
    answers 500 and the waiting punch is marked with the detail. *)
Lemma sync_now_failure_witness :
  sync_ready Examples.sync_config
  ∧ Examples.pending_batch ≠ []
  ∧ answer Examples.sync_config Examples.reject_all Examples.pending_db
           Examples.pending_batch
    = Response 500 "Internal Server Error"
  ∧ 500 ≠ 200
  ∧ value Examples.rejected_run = false
  ∧ store Examples.rejected_run
    = with_errors (Database.id <$> Examples.pending_batch)
                  (error_detail 500 "Internal Server Error")
                  Examples.pending_db
  ∧ (∀ p, p ∈ Examples.pending_batch →
       Database.set_error (error_detail 500 "Internal Server Error") p
       ∈ Database.punches (store Examples.rejected_run))
  ∧ (∀ q, q ∈ Database.punches (store Examples.rejected_run) →
       Database.is_synced q = true → q ∈ Database.punches Examples.pending_db).
Proof.
  assert (Hsome : Examples.pending_batch ≠ []) by discriminate.
  split; [exact sync_config_ready|]. split; [exact Hsome|].
  split; [reflexivity|]. split; [discriminate|].
  apply (proj1 (sync_now_failure Examples.sync_config Examples.reject_all
                                 Examples.pending_db sync_config_ready Hsome)
               500 "Internal Server Error");
    [reflexivity|discriminate].
Defined.

(** The detail a punch carries after the answer 500. *)
Example sync_now_failure_detail :
  Database.sync_error <$> Database.punches (store Examples.rejected_run)
  = [Some "Server returned 500: Internal Server Error"].
Proof. vm_compute. reflexivity. Qed.

(** The powers of 2 up to the fifth can be written and slept. *)
Lemma small_powers_fit (k : Z) :
  0 ≤ k ≤ 5 →
  Examples.str_raises (2 ^ k) = false
  ∧ Examples.sleep_raises (2 ^ k) = false.
Proof.
  intros Hk.
  assert (H : 0 < 2 ^ k ≤ 2 ^ 5)
    by (split; [apply Z.pow_pos_nonneg|apply Z.pow_le_mono_r]; lia).
  unfold Examples.str_raises, Examples.sleep_raises.
  split; apply Z.leb_gt.
  - apply Z.le_lt_trans with (2 ^ 5); [lia|]. vm_compute. reflexivity.
  - apply Z.le_lt_trans with (2 ^ 5); [lia|]. vm_compute. reflexivity.
Qed.

(** C5 with the defaults, base 2 and at most 5 attempts: seven cycles
    against an endpoint that cannot be reached sleep 2, 4, 8, 16, 32, 32
    and 32 seconds. *)
Lemma sync_loop_backoff_witness :
  0 ≤ Config.retry_max_attempts (Config.server Examples.sync_config)
  ∧ sync_ready Examples.sync_config
  ∧ (∀ k, 0 ≤ k ≤ Config.retry_max_attempts
                    (Config.server Examples.sync_config) →
          Examples.str_raises
            (Config.retry_backoff_base (Config.server Examples.sync_config)
             ^ k) = false
          ∧ Examples.sleep_raises
              (Config.retry_backoff_base (Config.server Examples.sync_config)
               ^ k) = false)
  ∧ Database.get_unsynced_punches 100 Examples.pending_db ≠ []
  ∧ sleeps (calls (Sync._sync_loop Examples.sync_config Examples.str_raises
                                   Examples.sleep_raises
                                   Examples.float_pow_raises
                                   (replicate 7 Examples.unreachable) 0
                                   Examples.pending_db))
    = Seconds <$> [2; 4; 8; 16; 32; 32; 32].
Proof.
  assert (Hmax : 0 ≤ Config.retry_max_attempts
                       (Config.server Examples.sync_config))
    by (simpl; lia).
  assert (Hsome : Database.get_unsynced_punches 100 Examples.pending_db ≠ [])
    by discriminate.
  split; [exact Hmax|]. split; [exact sync_config_ready|].
  split; [exact small_powers_fit|]. split; [exact Hsome|].
  apply (proj2 (proj2 (sync_loop_backoff
                         Examples.sync_config Examples.str_raises
                         Examples.sleep_raises Examples.float_pow_raises
                         Hmax))
               (replicate 7 Examples.unreachable) 0 Examples.pending_db
               sync_config_ready);
    [lia|exact small_powers_fit|exact Hsome|].
  repeat constructor; by exists "ConnectError".
Defined.

(** A success resets the count: after two rejected cycles and an
    accepted one, the loop sleeps the steady interval. *)
Example sync_loop_reset :
  sleeps (calls (Sync._sync_loop Examples.sync_config Examples.str_raises
                   Examples.sleep_raises Examples.float_pow_raises
                   [Examples.reject_all; Examples.unreachable;
                    Examples.accept_all; Examples.unreachable]
                   0 Examples.pending_db))
  = Seconds <$> [2; 4; 300; 300].
Proof. vm_compute. reflexivity. Qed.

(** A backoff that no float holds is not slept: the call raises, and the
    loop sleeps the 60 seconds of the exception branch and keeps the
    count. *)
Example sync_loop_fallback :
  Sync._sync_loop Examples.huge_base_config Examples.str_raises
                  Examples.sleep_raises Examples.float_pow_raises
                  [Examples.unreachable] 0 Examples.pending_db
  = (1, Examples.pending_db,
     reads Examples.huge_base_config Examples.pending_db
           Examples.pending_batch
     ++ [SleepRaised (Seconds (2 ^ 1024)); Sleep (Seconds 60)]).
Proof. vm_compute. reflexivity. Qed.

End SyncFacts.

(** ** Sync worker: status, delivery and life cycle *)

Module SyncMore.
Import Effects Sync Outbox SyncStatus.

Lemma fmap_id_inj `(f : A → Z) (l : list A) (x y : A) :
  NoDup (f <$> l) → x ∈ l → y ∈ l → f x = f y → x = y.
Proof.
  induction l as [|a l IH]; intros Hnd Hx Hy Hxy; [by apply elem_of_nil in Hx|].
  rewrite fmap_cons in Hnd. apply NoDup_cons in Hnd as [Ha Hnd].
  apply elem_of_cons in Hx as [->|Hx]; apply elem_of_cons in Hy as [->|Hy].
  - done.
  - exfalso. apply Ha. rewrite Hxy. by apply list_elem_of_fmap_2.
  - exfalso. apply Ha. rewrite <- Hxy. by apply list_elem_of_fmap_2.
  - by apply IH.
Qed.

Lemma unsynced_take limit db :
  Database.get_unsynced_punches limit db = take (Z.to_nat limit) (pending db).
Proof. reflexivity. Qed.

Lemma pending_in_store db p : p ∈ pending db → p ∈ Database.punches db.
Proof. intros H. by apply list_elem_of_filter in H as [_ ?]. Qed.

Lemma pending_not_synced db p : p ∈ pending db → Database.is_synced p = false.
Proof. intros H. by apply list_elem_of_filter in H as [? _]. Qed.

(** Filtering the punches after each of them went through [f]. *)
Lemma pending_fmap (f : Database.Punch → Database.Punch) db :
  pending (Database.with_punches (f <$> Database.punches db) db)
  = f <$> filter (fun p => Database.is_synced (f p) = false) (Database.punches db).
Proof.
  unfold pending. simpl.
  induction (Database.punches db) as [|p ps IH]; [reflexivity|].
  rewrite fmap_cons, !filter_cons.
  destruct (decide (Database.is_synced (f p) = false)); rewrite IH; done.
Qed.

Lemma filter_ext_in `(P1 : A → Prop) (P2 : A → Prop)
    `{!∀ x, Decision (P1 x), !∀ x, Decision (P2 x)} (l : list A) :
  (∀ x, x ∈ l → (P1 x ↔ P2 x)) → filter P1 l = filter P2 l.
Proof.
  induction l as [|a l IH]; intros Hiff; [done|].
  rewrite !filter_cons.
  assert (Ha : P1 a ↔ P2 a) by (apply Hiff; left).
  assert (Hl : filter P1 l = filter P2 l)
    by (apply IH; intros x Hx; apply Hiff; by right).
  destruct (decide (P1 a)), (decide (P2 a)); try tauto; by rewrite Hl.
Qed.

Lemma list_filter_nil_aux `(P : A → Prop) `{!∀ x, Decision (P x)} (l : list A) :
  (∀ x, x ∈ l → ¬ P x) → filter P l = [].
Proof.
  induction l as [|a l IH]; intros HP; [done|].
  rewrite filter_cons, decide_False by (apply HP; left).
  apply IH. intros x Hx. apply HP. by right.
Qed.

Lemma fmap_fixed `(f : A → A) (l : list A) :
  (∀ x, x ∈ l → f x = x) → f <$> l = l.
Proof.
  intros Hf. rewrite <- (list_fmap_id l) at 2.
  apply list_fmap_ext. intros i x Hx. apply Hf.
  by eapply list_elem_of_lookup_2.
Qed.

(** What waits for delivery after the batch [punch_ids] is marked synced:
    the punches that waited and are not in the batch. *)
Lemma pending_mark_synced punch_ids db :
  pending (Database.mark_punches_synced punch_ids db)
  = filter (fun p => Database.id p ∉ punch_ids) (pending db).
Proof.
  unfold Database.mark_punches_synced. rewrite pending_fmap. unfold pending.
  rewrite list_filter_filter.
  rewrite (list_filter_iff _
             (fun p => (Database.id p ∉ punch_ids)
                       ∧ Database.is_synced p = false)).
  - apply fmap_fixed. intros p [[Hnin _] _]%list_elem_of_filter.
    by rewrite bool_decide_eq_false_2.
  - intros p.
    destruct (bool_decide_reflect (Database.id p ∈ punch_ids)) as [Hin|Hnin].
    + split; [done|]. by intros [? _].
    + tauto.
Qed.

(** What waits for delivery after an error is marked on the batch
    [punch_ids], when no punch of the batch was synced before. *)
Lemma pending_with_errors punch_ids msg db :
  (∀ p, p ∈ Database.punches db → Database.is_synced p = true →
        Database.id p ∉ punch_ids) →
  Database.id <$> pending (with_errors punch_ids msg db)
  = Database.id <$> pending db.
Proof.
  intros Hsynced. unfold with_errors. rewrite pending_fmap. unfold pending.
  rewrite (filter_ext_in _ (fun p => Database.is_synced p = false)).
  - rewrite <- list_fmap_compose. apply list_fmap_ext. intros _ p _. simpl.
    by destruct (bool_decide _).
  - intros p Hp.
    destruct (bool_decide_reflect (Database.id p ∈ punch_ids)) as [Hin|Hnin];
      [|done].
    split; [|done]. intros _.
    destruct (Database.is_synced p) eqn:Hs; [|done].
    by destruct (Hsynced p Hp Hs).
Qed.

Section Status.

Variable config : Config.t.

Local Abbreviation sync_now := (Sync.sync_now config).
Local Abbreviation get_status := (SyncStatus.get_status config).
Local Abbreviation answer := (Outbox.answer config).

Lemma get_status_counts_aux self db :
  st_unsynced_count (value (get_status self db))
  = Z.min 1000 (Z.of_nat (length (pending db))).
Proof.
  unfold SyncStatus.get_status, mbind, M_bind, Effects.get_unsynced_punches,
    read, value. simpl.
  rewrite unsynced_take, length_take.
  change (Z.to_nat 1000) with 1000%nat. lia.
Qed.

(** X1.  [get_status] reads and changes nothing else: the store is as
    before, the count is the number of punches waiting for delivery, cut
    at 1000, and the URL is hidden when sync is disabled. *)
Theorem get_status_counts self db :
  let r := get_status self db in
  store r = db
  ∧ calls r = [GetUnsyncedPunches 1000]
  ∧ st_unsynced_count (value r)
    = Z.min 1000 (Z.of_nat (length (pending db)))
  ∧ 0 ≤ st_unsynced_count (value r) ≤ 1000
  ∧ st_running (value r) = running self
  ∧ (Config.enabled (Config.server config) = false →
     st_server_url (value r) = None).
Proof.
  unfold SyncStatus.get_status, mbind, M_bind, Effects.get_unsynced_punches,
    read, value, store, calls. simpl.
  rewrite unsynced_take, length_take.
  change (Z.to_nat 1000) with 1000%nat.
  split_and!; try done; try lia.
  by intros ->.
Qed.

(** X2.  A cycle the endpoint accepts leaves waiting exactly the punches
    that waited and were not in the batch; when at most 100 punches
    waited, nothing waits any more and [get_status] counts 0. *)
Theorem sync_now_accepted_drains post db text self :
  sync_ready config →
  Database.get_unsynced_punches 100 db ≠ [] →
  answer post db (Database.get_unsynced_punches 100 db) = Response 200 text →
  let r := sync_now post db in
  pending (store r)
  = filter (fun p => Database.id p
                     ∉ Database.id <$> Database.get_unsynced_punches 100 db)
           (pending db)
  ∧ ((length (pending db) ≤ 100)%nat →
     pending (store r) = []
     ∧ st_unsynced_count (value (get_status self (store r))) = 0).
Proof.
  intros Hready Hsome Hans r.
  assert (Hstore : store r = Database.mark_punches_synced
                     (Database.id <$> Database.get_unsynced_punches 100 db) db).
  { subst r. rewrite (SyncFacts.sync_now_cycle config post db Hready Hsome), Hans.
    reflexivity. }
  rewrite Hstore, pending_mark_synced. split; [done|].
  intros Hfew.
  assert (Hnone : filter
            (fun p => Database.id p
                      ∉ Database.id <$> Database.get_unsynced_punches 100 db)
            (pending db) = []).
  { rewrite unsynced_take, take_ge by (change (Z.to_nat 100) with 100%nat; lia).
    apply list_filter_nil_aux. intros p Hp Hnin. apply Hnin.
    by apply list_elem_of_fmap_2. }
  split; [done|].
  rewrite get_status_counts_aux, pending_mark_synced, Hnone. reflexivity.
Qed.

(** The shapes a cycle can take. *)
Lemma sync_now_cases post db :
  sync_now post db = (true, db, [])
  ∨ sync_now post db = (true, db, [GetUnsyncedPunches 100])
  ∨ (sync_ready config ∧ Database.get_unsynced_punches 100 db ≠ []).
Proof.
  destruct (Config.enabled (Config.server config)) eqn:Hen.
  - destruct (decide (Config.url (Config.server config) = "")) as [Hu|Hu].
    + left. by apply SyncFacts.sync_now_no_url.
    + destruct (Database.get_unsynced_punches 100 db) as [|p ps] eqn:Hb.
      * right; left. by apply SyncFacts.sync_now_nothing.
      * right; right. done.
  - left. by apply SyncFacts.sync_now_disabled.
Qed.

Lemma batch_not_synced_before db p :
  NoDup (Database.id <$> Database.punches db) →
  p ∈ Database.punches db → Database.is_synced p = true →
  Database.id p ∉ Database.id <$> Database.get_unsynced_punches 100 db.
Proof.
  intros Hnd Hp Hs [q [Hid Hq]]%list_elem_of_fmap.
  rewrite unsynced_take in Hq.
  apply elem_of_take in Hq as (i & Hi & _).
  apply list_elem_of_lookup_2 in Hi.
  assert (p = q) as ->
    by (eapply fmap_id_inj; eauto using pending_in_store).
  apply pending_not_synced in Hi. congruence.
Qed.

(** X3.  A cycle that reports failure loses nothing: with identifiers
    that are unique in the store, a read of the punches waiting for
    delivery gives the same identifiers, in the same order, after the
    cycle as before it. *)
Theorem sync_now_failure_keeps_pending post db limit :
  NoDup (Database.id <$> Database.punches db) →
  value (sync_now post db) = false →
  Database.id <$> Database.get_unsynced_punches limit (store (sync_now post db))
  = Database.id <$> Database.get_unsynced_punches limit db.
Proof.
  intros Hnd Hfail.
  destruct (sync_now_cases post db) as [H|[H|[Hready Hsome]]];
    [by rewrite H in Hfail|by rewrite H in Hfail|].
  rewrite (SyncFacts.sync_now_cycle config post db Hready Hsome) in *.
  destruct (answer post db _) as [status_code text|e]; [|done].
  destruct (status_code =? 200); [done|].
  unfold store. cbn [fst snd].
  set (ids := Database.id <$> Database.get_unsynced_punches 100 db).
  rewrite !unsynced_take, !fmap_take. f_equal.
  apply pending_with_errors. intros p Hp Hs. subst ids.
  by apply batch_not_synced_before.
Qed.

Lemma sleeps_marks msg (punches : list Database.Punch) :
  sleeps ((fun p => MarkPunchSyncError (Database.id p) msg) <$> punches) = [].
Proof. induction punches; [reflexivity|done]. Qed.

(** [sync_now] never sleeps. *)
Lemma sync_now_no_sleep post db : sleeps (calls (sync_now post db)) = [].
Proof.
  destruct (sync_now_cases post db) as [H|[H|[Hready Hsome]]];
    [by rewrite H|by rewrite H|].
  rewrite (SyncFacts.sync_now_cycle config post db Hready Hsome).
  destruct (answer post db _) as [status_code text|e].
  - destruct (status_code =? 200); unfold calls; cbn [fst snd];
      rewrite SyncFacts.sleeps_app, SyncFacts.sleeps_reads;
      [done|by rewrite sleeps_marks].
  - unfold calls. cbn [fst snd]. apply SyncFacts.sleeps_reads.
Qed.

Lemma raised_app tr1 tr2 : raised (tr1 ++ tr2) = raised tr1 ++ raised tr2.
Proof. apply omap_app. Qed.

Lemma raised_reads db (punches : list Database.Punch) :
  raised (reads config db punches) = [].
Proof.
  unfold reads. change (raised (?e :: ?l)) with (raised ([e] ++ l)).
  rewrite !raised_app. cbn [raised omap list_omap app].
  by induction punches.
Qed.

Lemma raised_marks msg (punches : list Database.Punch) :
  raised ((fun p => MarkPunchSyncError (Database.id p) msg) <$> punches) = [].
Proof. induction punches; [reflexivity|done]. Qed.

(** No call of [asyncio.sleep] is made by [sync_now]. *)
Lemma sync_now_no_raise post db : raised (calls (sync_now post db)) = [].
Proof.
  destruct (sync_now_cases post db) as [H|[H|[Hready Hsome]]];
    [by rewrite H|by rewrite H|].
  rewrite (SyncFacts.sync_now_cycle config post db Hready Hsome).
  destruct (answer post db _) as [status_code text|e].
  - destruct (status_code =? 200); unfold calls; cbn [fst snd];
      rewrite raised_app, raised_reads;
      [done|by rewrite raised_marks].
  - unfold calls. cbn [fst snd]. apply raised_reads.
Qed.

Variables str_raises sleep_raises : Z -> bool.
Variable float_pow_raises : Z -> Z -> bool.

Local Abbreviation _sync_loop :=
  (Sync._sync_loop config str_raises sleep_raises float_pow_raises).
Local Abbreviation cycle_sleeps :=
  (Outbox.cycle_sleeps config str_raises sleep_raises float_pow_raises).
Local Abbreviation interval :=
  (Config.sync_interval_seconds (Config.server config)).
Local Abbreviation max_attempts :=
  (Config.retry_max_attempts (Config.server config)).
Local Abbreviation base := (Config.retry_backoff_base (Config.server config)).

(** What a cycle sleeps after its [sync_now]. *)
Lemma cycle_sleeps_cases success retry_count :
  0 ≤ retry_count ≤ max_attempts →
  ∃ d, sleeps (cycle_sleeps success retry_count) = [d]
       ∧ (length (raised (cycle_sleeps success retry_count)) ≤ 1)%nat
       ∧ ((d = Seconds interval ∧ sleep_raises interval = false)
          ∨ (∃ k, 0 ≤ k ≤ max_attempts ∧ d = Seconds (base ^ k)
                  ∧ str_raises (base ^ k) = false
                  ∧ sleep_raises (base ^ k) = false)
          ∨ d = Seconds 60).
Proof.
  intros Hrc.
  unfold Outbox.cycle_sleeps, sleep_calls, pow, warning_raises.
  destruct success.
  - destruct (sleep_raises interval) eqn:Hi; eexists;
      (split; [reflexivity|]); (split; [simpl; lia|]); auto.
  - destruct (Z.leb_spec 0 retry_count); [|lia].
    destruct (str_raises (base ^ retry_count)) eqn:Hstr;
      [|destruct (sleep_raises (base ^ retry_count)) eqn:Hsleep];
      eexists; (split; [reflexivity|]); (split; [simpl; lia|]); auto.
    right; left. by exists retry_count.
Qed.

(** X4.  Whatever the endpoint does, each cycle of the loop sleeps
    exactly once: the steady interval, the base to a power between 0 and
    [retry_max_attempts], or the 60 seconds of the exception branch; a
    delay other than the 60 seconds is one that can be written and slept.
    Besides, a cycle makes at most one call of [asyncio.sleep] that
    raises.  The retry count stays between 0 and [retry_max_attempts].
    When the interval and those powers can all be written and slept, no
    call raises and the 60 seconds are never needed. *)
Theorem sync_loop_sleeps_bounded cycles retry_count db :
  0 ≤ retry_count ≤ max_attempts →
  let r := _sync_loop cycles retry_count db in
  0 ≤ value r ≤ max_attempts
  ∧ length (sleeps (calls r)) = length cycles
  ∧ (length (raised (calls r)) ≤ length cycles)%nat
  ∧ Forall (fun d =>
              (d = Seconds interval ∧ sleep_raises interval = false)
              ∨ (∃ k, 0 ≤ k ≤ max_attempts ∧ d = Seconds (base ^ k)
                      ∧ str_raises (base ^ k) = false
                      ∧ sleep_raises (base ^ k) = false)
              ∨ d = Seconds 60)
           (sleeps (calls r))
  ∧ (sleep_raises interval = false →
     (∀ k, 0 ≤ k ≤ max_attempts →
           str_raises (base ^ k) = false ∧ sleep_raises (base ^ k) = false) →
     raised (calls r) = []
     ∧ Forall (fun d => d = Seconds interval
                        ∨ ∃ k, 0 ≤ k ≤ max_attempts ∧ d = Seconds (base ^ k))
              (sleeps (calls r))).
Proof.
  revert retry_count db.
  induction cycles as [|post rest IH]; intros retry_count db Hrc.
  { unfold value, calls; simpl.
    split_and!; try done; try lia; constructor. }
  cbv zeta. rewrite SyncFacts.sync_loop_step. cbv zeta.
  set (rc' := if value (sync_now post db) then 0
              else Z.min (retry_count + 1) max_attempts).
  assert (Hrc' : 0 ≤ rc' ≤ max_attempts)
    by (subst rc'; destruct (value (sync_now post db)); lia).
  destruct (IH rc' (store (sync_now post db)) Hrc')
    as (Hv & Hlen & Hraised & Hall & Hfit).
  destruct (cycle_sleeps_cases (value (sync_now post db)) rc' Hrc')
    as (d & Hd & Hone & Hcase).
  pose proof (sync_now_no_sleep post db) as Hns.
  pose proof (sync_now_no_raise post db) as Hnr.
  unfold value, store, calls in *. cbn [fst snd].
  rewrite !SyncFacts.sleeps_app, !raised_app, Hns, Hnr, Hd.
  cbn [app length]. rewrite length_app.
  split_and!; [lia|lia|by rewrite Hlen|lia|by constructor|].
  intros Hi Hpowers. destruct (Hfit Hi Hpowers) as [Hnone Hplain].
  rewrite Hnone, app_nil_r.
  destruct (sync_now post db).1.1.
  - rewrite SyncFacts.cycle_sleeps_interval in Hd |- * by done.
    injection Hd as <-. split; [done|]. constructor; [by left|done].
  - destruct (Hpowers rc' Hrc') as [Hstr Hsleep].
    rewrite SyncFacts.cycle_sleeps_backoff in Hd |- * by (done || lia).
    injection Hd as <-. split; [done|]. constructor; [|done].
    right. by exists rc'.
Qed.

End Status.

Lemma start_idempotent config self :
  start config (start config self) = start config self.
Proof.
  unfold start.
  destruct (Config.enabled (Config.server config)); simpl; [|done].
  destruct (running self) eqn:Hrun; simpl; by rewrite ?Hrun.
Qed.


(** X1 on the default configuration, which has sync disabled. *)
Lemma get_status_counts_witness :
  Config.enabled (Config.server Config.default) = false
  ∧ st_server_url
      (value (SyncStatus.get_status Config.default Examples.idle_worker
                                    Examples.pending_db))
    = None.
Proof.
  split; [reflexivity|].
  pose proof (get_status_counts Config.default Examples.idle_worker
                                Examples.pending_db) as H.
  cbv zeta in H. destruct H as (_ & _ & _ & _ & _ & H). by apply H.
Defined.

(** X2 on the store with one punch waiting. *)
Lemma sync_now_accepted_drains_witness :
  sync_ready Examples.sync_config
  ∧ Examples.pending_batch ≠ []
  ∧ Outbox.answer Examples.sync_config Examples.accept_all Examples.pending_db
                  Examples.pending_batch
    = Response 200 "ok"
  ∧ (length (pending Examples.pending_db) ≤ 100)%nat
  ∧ pending (store Cases.accepted_run) = []
  ∧ st_unsynced_count
      (value (SyncStatus.get_status Examples.sync_config Examples.idle_worker
                                    (store Cases.accepted_run)))
    = 0.
Proof.
  assert (Hsome : Examples.pending_batch ≠ []) by discriminate.
  assert (Hfew : (length (pending Examples.pending_db) ≤ 100)%nat)
    by (vm_compute; lia).
  split; [exact SyncFacts.sync_config_ready|]. split; [exact Hsome|].
  split; [reflexivity|]. split; [exact Hfew|].
  pose proof (sync_now_accepted_drains
                Examples.sync_config Examples.accept_all Examples.pending_db
                "ok" Examples.idle_worker SyncFacts.sync_config_ready Hsome
                eq_refl) as H.
  cbv zeta in H. destruct H as [_ H]. exact (H Hfew).
Defined.

(** X3 on the cycle the endpoint answers with 500. *)
Lemma sync_now_failure_keeps_pending_witness :
  NoDup (Database.id <$> Database.punches Examples.pending_db)
  ∧ value Examples.rejected_run = false
  ∧ Database.id
      <$> Database.get_unsynced_punches 100 (store Examples.rejected_run)
    = Database.id <$> Database.get_unsynced_punches 100 Examples.pending_db.
Proof.
  assert (Hnd : NoDup (Database.id <$> Database.punches Examples.pending_db))
    by (apply NoDup_singleton).
  split; [exact Hnd|]. split; [reflexivity|].
  exact (sync_now_failure_keeps_pending
           Examples.sync_config Examples.reject_all Examples.pending_db 100
           Hnd eq_refl).
Defined.

(** X4 on a rejected, an unreachable and an accepted cycle. *)
Lemma sync_loop_sleeps_bounded_witness :
  0 ≤ 0 ≤ Config.retry_max_attempts (Config.server Examples.sync_config)
  ∧ Examples.sleep_raises
      (Config.sync_interval_seconds (Config.server Examples.sync_config))
    = false
  ∧ (∀ k, 0 ≤ k ≤ Config.retry_max_attempts
                    (Config.server Examples.sync_config) →
          Examples.str_raises
            (Config.retry_backoff_base (Config.server Examples.sync_config)
             ^ k) = false
          ∧ Examples.sleep_raises
              (Config.retry_backoff_base (Config.server Examples.sync_config)
               ^ k) = false)
  ∧ length (sleeps (calls (Sync._sync_loop
                             Examples.sync_config Examples.str_raises
                             Examples.sleep_raises Examples.float_pow_raises
                             Cases.mixed_cycles 0 Examples.pending_db)))
    = length Cases.mixed_cycles
  ∧ raised (calls (Sync._sync_loop
                     Examples.sync_config Examples.str_raises
                     Examples.sleep_raises Examples.float_pow_raises
                     Cases.mixed_cycles 0 Examples.pending_db))
    = []
  ∧ Forall (fun d => d = Seconds 300
                     ∨ ∃ k, 0 ≤ k ≤ 5 ∧ d = Seconds (2 ^ k))
           (sleeps (calls (Sync._sync_loop
                             Examples.sync_config Examples.str_raises
                             Examples.sleep_raises Examples.float_pow_raises
                             Cases.mixed_cycles 0 Examples.pending_db))).
Proof.
  assert (Hrc : 0 ≤ 0 ≤ Config.retry_max_attempts
                          (Config.server Examples.sync_config))
    by (simpl; lia).
  assert (Hi : Examples.sleep_raises
                 (Config.sync_interval_seconds
                    (Config.server Examples.sync_config)) = false)
    by (vm_compute; reflexivity).
  split; [exact Hrc|]. split; [exact Hi|].
  split; [exact SyncFacts.small_powers_fit|].
  pose proof (sync_loop_sleeps_bounded
                Examples.sync_config Examples.str_raises
                Examples.sleep_raises Examples.float_pow_raises
                Cases.mixed_cycles 0 Examples.pending_db Hrc) as H.
  cbv zeta in H. destruct H as (_ & Hlen & _ & _ & Hfit).
  split; [exact Hlen|]. exact (Hfit Hi SyncFacts.small_powers_fit).
Defined.


End SyncMore.

(** ** Sessions and authorisation *)

Module SessionFacts.
Import Effects Admin Sessions.

Lemma verify_token_lookup (tokens : gmap string Database.datetime) token :
  verify_token tokens token = true ↔ is_Some (tokens !! token).
Proof. unfold verify_token. apply bool_decide_eq_true. Qed.

Section Login.

Variable verify_password : string -> bool.

Local Abbreviation login := (Sessions.login verify_password).

(** X6.  A login with the right password answers with the drawn token
    and makes it valid, and every token that was valid stays valid; a
    login with a wrong password raises 401 and leaves the token store as
    it was. *)
Theorem login_grants_session password token utcnow
    (tokens : gmap string Database.datetime) :
  (verify_password password = true →
   fst (login password token utcnow tokens)
   = LoginReply {| login_success := true; login_token := Some token |}
   ∧ verify_token (snd (login password token utcnow tokens)) token = true
   ∧ ∀ t, verify_token tokens t = true →
          verify_token (snd (login password token utcnow tokens)) t = true)
  ∧ (verify_password password = false →
     login password token utcnow tokens = (LoginException 401, tokens)).
Proof.
  unfold Sessions.login. split; intros ->; [|done]. simpl.
  split_and!; [done| |].
  - apply verify_token_lookup. rewrite lookup_insert_eq. eauto.
  - intros t Ht. apply verify_token_lookup. apply verify_token_lookup in Ht.
    destruct (decide (token = t)) as [->|Hne].
    + rewrite lookup_insert_eq. eauto.
    + by rewrite lookup_insert_ne.
Qed.

(** X8.  Logging out the token a login just drew, when that token was not
    in the store before, gives back the store as it was before the
    login. *)
Theorem login_logout_round_trip password token utcnow
    (tokens : gmap string Database.datetime) :
  verify_password password = true →
  tokens !! token = None →
  snd (logout token (snd (login password token utcnow tokens))) = tokens.
Proof.
  intros Hpw Hfresh. unfold Sessions.login, logout. rewrite Hpw. simpl.
  rewrite bool_decide_eq_true_2 by (rewrite lookup_insert_eq; eauto).
  by apply delete_insert_id.
Qed.

End Login.

(** X7.  [logout] always answers success; afterwards the token is not
    valid, every other token is as valid as before, and a token that was
    not in the store leaves the store as it was. *)
Theorem logout_revokes_one_token token (tokens : gmap string Database.datetime) :
  fst (logout token tokens) = true
  ∧ verify_token (snd (logout token tokens)) token = false
  ∧ (∀ t, t ≠ token →
       verify_token (snd (logout token tokens)) t = verify_token tokens t)
  ∧ (tokens !! token = None → snd (logout token tokens) = tokens).
Proof.
  unfold logout, verify_token. simpl.
  destruct (bool_decide_reflect (is_Some (tokens !! token))) as [Hin|Hnin].
  - split_and!; [done| | |].
    + apply bool_decide_eq_false_2. rewrite lookup_delete_eq. by intros [? ?].
    + intros t Hne. by rewrite lookup_delete_ne.
    + intros Hnone. rewrite Hnone in Hin. by destruct Hin.
  - split_and!; [done| |done|done].
    by apply bool_decide_eq_false_2.
Qed.

Local Ltac finish_path :=
  unfold value, store; simpl; split_and!; try done;
  try (intros ? [= <-]; simpl; done).

Section Capture.

Variable config : Config.t.
Variable joinpath : string -> string -> string.
Variable capture_fingerprint : string -> bool * option string.
Variable extract_features : string -> bool * option string * Z.
Variable utcnow : string.

Local Abbreviation capture_sample tokens :=
  (Admin.capture_sample config joinpath tokens capture_fingerprint extract_features
                        utcnow).

(** X9.  Once a token is logged out, [capture_sample] called with it
    raises 401 without a single call to the store, the camera or the
    extractor, and leaves the store as it was. *)
Theorem capture_sample_after_logout token
    (tokens : gmap string Database.datetime) user_id sample_number db :
  capture_sample (snd (logout token tokens)) user_id sample_number token db
  = (HTTPException 401, db, []).
Proof.
  unfold Admin.capture_sample.
  destruct (logout_revokes_one_token token tokens) as (_ & -> & _).
  reflexivity.
Qed.

(** X10.  On every path [capture_sample] leaves the users and the punches
    of the store alone and the Templates it held in place.  An answer
    other than success leaves the whole store as it was, and a success
    answer reports a quality of at least [min_quality_score] and comes with
    exactly one new Template, of that quality, for the user found. *)
Theorem capture_sample_store_discipline tokens user_id sample_number token db :
  let r := capture_sample tokens user_id sample_number token db in
  Database.users (store r) = Database.users db
  ∧ Database.punches (store r) = Database.punches db
  ∧ Database.templates db `prefix_of` Database.templates (store r)
  ∧ (∀ code, value r = HTTPException code → code = 401 ∧ store r = db)
  ∧ (∀ c, value r = Reply c → success c = false → store r = db)
  ∧ (∀ c, value r = Reply c → success c = true →
       Config.min_quality_score (Config.fingerprint config) ≤ quality c
       ∧ ∃ user path,
           Database.get_user user_id db = Some user
           ∧ store r = Database.add_template (Database.User_id user) path
                                             (quality c) db).
Proof.
  cbv zeta. unfold Admin.capture_sample.
  destruct (verify_token tokens token); simpl; [|by finish_path].
  unfold mbind, M_bind, Effects.get_user, read, call.
  destruct (Database.get_user user_id db) as [user|] eqn:Huser;
    [|by finish_path].
  destruct (capture_fingerprint _) as [[] err]; simpl; [|by finish_path].
  destruct (extract_features _) as [[[] xyt_path] q]; simpl; [|by finish_path].
  destruct (Z.ltb_spec q (Config.min_quality_score (Config.fingerprint config)));
    [by finish_path|].
  finish_path.
  - by apply prefix_app_r.
  - intros c [= <-] _. simpl. split; [lia|].
    by exists user, (str_of_path xyt_path).
Qed.

End Capture.

(** X6 on the right password. *)
Lemma login_grants_session_witness :
  Cases.password_ok "s3cret" = true
  ∧ verify_token
      (snd (Sessions.login Cases.password_ok "s3cret" "tok2" Examples.stamp
                           Examples.tokens))
      "tok2"
    = true.
Proof.
  split; [reflexivity|].
  pose proof (login_grants_session Cases.password_ok "s3cret" "tok2"
                                   Examples.stamp Examples.tokens) as H.
  destruct H as [H _]. destruct (H eq_refl) as (_ & H' & _). exact H'.
Defined.

(** X7 on a token that is not in the store. *)
Lemma logout_revokes_one_token_witness :
  Examples.tokens !! "nobody" = None
  ∧ snd (logout "nobody" Examples.tokens) = Examples.tokens.
Proof.
  assert (Hnone : Examples.tokens !! "nobody" = None) by reflexivity.
  split; [exact Hnone|].
  pose proof (logout_revokes_one_token "nobody" Examples.tokens) as H.
  destruct H as (_ & _ & _ & H). exact (H Hnone).
Defined.

(** X8 on a fresh token. *)
Lemma login_logout_round_trip_witness :
  Cases.password_ok "s3cret" = true
  ∧ Examples.tokens !! "tok2" = None
  ∧ snd (logout "tok2"
           (snd (Sessions.login Cases.password_ok "s3cret" "tok2"
                                Examples.stamp Examples.tokens)))
    = Examples.tokens.
Proof.
  assert (Hnone : Examples.tokens !! "tok2" = None) by reflexivity.
  split; [reflexivity|]. split; [exact Hnone|].
  exact (login_logout_round_trip Cases.password_ok "s3cret" "tok2"
                                 Examples.stamp Examples.tokens eq_refl Hnone).
Defined.

(** X10 on the sample of quality 15, which is rejected. *)
Lemma capture_sample_store_discipline_witness :
  value (Examples.sample_run 15)
  = Reply (Answers.low_quality Config.default 1 15)
  ∧ success (Answers.low_quality Config.default 1 15) = false
  ∧ store (Examples.sample_run 15) = Examples.db_with [].
Proof.
  assert (Hv : value (Examples.sample_run 15)
               = Reply (Answers.low_quality Config.default 1 15))
    by reflexivity.
  split; [exact Hv|]. split; [reflexivity|].
  pose proof (capture_sample_store_discipline
                Config.default Examples.joinpath Examples.camera_ok
                (Examples.extractor 15) Examples.now Examples.tokens 1 1 "tok"
                (Examples.db_with []))
    as H.
  cbv zeta in H. destruct H as (_ & _ & _ & _ & H & _).
  exact (H _ Hv eq_refl).
Defined.

End SessionFacts.

(** ** The start of an enrollment *)

Module DirectoryFacts.
Import Directory.

Lemma get_user_by_code_none code db :
  get_user_by_code code db = None ↔
  ∀ i u, Database.users db !! i = Some u → Database.employee_code u ≠ code.
Proof.
  unfold get_user_by_code. rewrite fmap_None. split.
  - intros Hfind i u Hiu Hcode.
    assert (Hin : In (i, u) (map_to_list (Database.users db)))
      by (apply list_elem_of_In; by apply elem_of_map_to_list).
    pose proof (find_none _ _ Hfind _ Hin) as Hf. simpl in Hf.
    by apply bool_decide_eq_false in Hf.
  - intros Hno.
    destruct (find _ _) as [[i u]|] eqn:Hfind; [|done].
    apply find_some in Hfind as [Hin Hf]. simpl in Hf.
    apply bool_decide_eq_true in Hf.
    apply list_elem_of_In, elem_of_map_to_list in Hin.
    by destruct (Hno i u Hin).
Qed.

Lemma get_user_by_code_some code db u :
  get_user_by_code code db = Some u →
  Database.employee_code u = code
  ∧ ∃ i, Database.users db !! i = Some u.
Proof.
  unfold get_user_by_code. intros Hsome.
  apply fmap_Some in Hsome as ([i v] & Hfind & ->).
  apply find_some in Hfind as [Hin Hf]. simpl in *.
  apply bool_decide_eq_true in Hf. split; [done|].
  exists i. by apply elem_of_map_to_list, list_elem_of_In.
Qed.

(** Every identifier in use is below the next one. *)
Lemma next_user_id_above db i :
  is_Some (Database.users db !! i) → i < next_user_id db.
Proof.
  unfold next_user_id.
  generalize (Database.users db). intros m. revert i.
  apply (map_fold_weak_ind
           (fun r (m : gmap Z Database.User) =>
              ∀ i, is_Some (m !! i) → i < 1 + r)).
  - intros i [? H]. by rewrite lookup_empty in H.
  - intros k x m' r Hk IH i Hi.
    destruct (decide (k = i)) as [->|Hne]; [lia|].
    rewrite lookup_insert_ne in Hi by done. specialize (IH i Hi). lia.
Qed.

Lemma next_user_id_fresh db : Database.users db !! next_user_id db = None.
Proof.
  destruct (Database.users db !! next_user_id db) eqn:H; [|done].
  assert (next_user_id db < next_user_id db)
    by (apply next_user_id_above; eauto).
  lia.
Qed.

Section Enroll.

Variable active_tokens : gmap string Database.datetime.
Variable now : Database.datetime.

Local Abbreviation start_enrollment :=
  (Directory.start_enrollment active_tokens now).

(** X11.  [start_enrollment] keeps the employee codes unique.  It creates
    a user exactly when the token is valid and no user carries the code;
    the new user is then found under the identifier returned, carries the
    name and the code and is active, and every user that was in the store
    is still there unchanged.  Otherwise the store is as it was. *)
Theorem start_enrollment_keeps_codes_unique name code token db :
  let r := start_enrollment name code token db in
  (codes_unique db → codes_unique (snd r))
  ∧ (∀ i u, Database.users db !! i = Some u →
            Database.users (snd r) !! i = Some u)
  ∧ Database.templates (snd r) = Database.templates db
  ∧ Database.punches (snd r) = Database.punches db
  ∧ ((∃ c, fst r = EnrollReply c ∧ enroll_success c = true)
     ↔ Admin.verify_token active_tokens token = true
       ∧ get_user_by_code code db = None)
  ∧ (∀ c, fst r = EnrollReply c → enroll_success c = true →
       ∃ uid, enroll_user_id c = Some uid
              ∧ Database.get_user uid (snd r)
                = Some {| Database.User_id := uid; Database.name := name;
                          Database.employee_code := code;
                          Database.active := true;
                          Database.created_at := now |}
              ∧ Database.get_user uid db = None)
  ∧ ((∀ c, fst r = EnrollReply c → enroll_success c = false) → snd r = db).
Proof.
  cbv zeta. unfold Directory.start_enrollment.
  destruct (Admin.verify_token active_tokens token); simpl.
  2:{ split_and!; try done.
      split; [by intros (c & [=] & _)|by intros [[=] _]]. }
  destruct (get_user_by_code code db) as [existing|] eqn:Hcode; simpl.
  { split_and!; try done; try (by intros c [= <-] Hs).
    split; [|by intros [_ [=]]]. by intros (c & [= <-] & Hs). }
  pose proof (next_user_id_fresh db) as Hfresh.
  pose proof (proj1 (get_user_by_code_none code db) Hcode) as Hcodes.
  split_and!; try done.
  - intros Huniq i j u v Hi Hj Huv. simpl in Hi, Hj.
    destruct (decide (next_user_id db = i)) as [<-|Hi'];
      destruct (decide (next_user_id db = j)) as [<-|Hj']; [done| | |].
    + rewrite lookup_insert_eq in Hi. rewrite lookup_insert_ne in Hj by done.
      injection Hi as <-. simpl in Huv. by destruct (Hcodes j v Hj).
    + rewrite lookup_insert_eq in Hj. rewrite lookup_insert_ne in Hi by done.
      injection Hj as <-. simpl in Huv. by destruct (Hcodes i u Hi).
    + rewrite lookup_insert_ne in Hi, Hj by done. by eapply Huniq.
  - intros i u Hi. simpl. rewrite lookup_insert_ne; [done|].
    intros <-. by rewrite Hfresh in Hi.
  - split; [done|]. intros _. eexists. split; [done|done].
  - intros c [= <-] _. exists (next_user_id db). split; [done|].
    unfold Database.get_user. simpl. by rewrite lookup_insert_eq.
  - intros Hall. by specialize (Hall _ eq_refl).
Qed.

Section Capture.

Variable config : Config.t.
Variable joinpath : string -> string -> string.
Variable capture_fingerprint : string -> bool * option string.
Variable extract_features : string -> bool * option string * Z.
Variable utcnow : string.

Local Abbreviation capture_sample :=
  (Admin.capture_sample config joinpath active_tokens capture_fingerprint
                        extract_features utcnow).

(** X12.  The identifier a successful [start_enrollment] returns is one
    [capture_sample] accepts with the same token: when the camera and the
    extraction succeed with a quality of at least [min_quality_score], the
    sample is stored as one more Template of the new user. *)
Theorem enrollment_then_capture name code token db c sample_number xyt_path q :
  fst (start_enrollment name code token db) = EnrollReply c →
  enroll_success c = true →
  ∃ uid user,
    enroll_user_id c = Some uid
    ∧ Database.get_user uid (snd (start_enrollment name code token db))
      = Some user
    ∧ Database.User_id user = uid
    ∧ (fst (capture_fingerprint
              (Admin.image_path_for config joinpath utcnow user sample_number)) = true →
       extract_features (Admin.image_path_for config joinpath utcnow user sample_number)
       = (true, xyt_path, q) →
       Config.min_quality_score (Config.fingerprint config) ≤ q →
       let r := capture_sample uid sample_number token
                               (snd (start_enrollment name code token db)) in
       Effects.value r = Admin.Reply (Answers.accepted sample_number q)
       ∧ ∃ tpl,
           Database.get_user_templates uid (Effects.store r)
           = Database.get_user_templates uid db ++ [tpl]
           ∧ Database.quality tpl = q
           ∧ Database.template_path tpl = Admin.str_of_path xyt_path).
Proof.
  unfold Directory.start_enrollment.
  destruct (Admin.verify_token active_tokens token) eqn:Htok; simpl; [|done].
  destruct (get_user_by_code code db) as [existing|] eqn:Hcode; simpl;
    [by intros [= <-]|].
  intros [= <-] _. simpl.
  eexists _, _. split; [done|]. split.
  { unfold Database.get_user. simpl. apply lookup_insert_eq. }
  split; [done|]. intros Hcap Hext Hq. cbv zeta.
  erewrite EnrollFacts.capture_sample_extracted; eauto;
    [|unfold Database.get_user; simpl; apply lookup_insert_eq].
  simpl. destruct (Z.ltb_spec q (Config.min_quality_score
                                   (Config.fingerprint config))); [lia|].
  unfold Effects.value, Effects.store. simpl. split; [done|].
  eexists. unfold Database.get_user_templates. simpl.
  rewrite filter_app, filter_cons, decide_True by done.
  split; [reflexivity|]. done.
Qed.

End Capture.

End Enroll.

Lemma codes_unique_example : codes_unique (Examples.db_with []).
Proof.
  intros i j u v Hi Hj _. simpl in Hi, Hj.
  apply lookup_singleton_Some in Hi as [<- _].
  by apply lookup_singleton_Some in Hj as [<- _].
Qed.

(** X11 on the enrollment of a second user. *)
Lemma start_enrollment_keeps_codes_unique_witness :
  codes_unique (Examples.db_with [])
  ∧ codes_unique (snd Cases.enrolled).
Proof.
  split; [exact codes_unique_example|].
  pose proof (start_enrollment_keeps_codes_unique
                Examples.tokens Examples.stamp "Bea" "B200" "tok"
                (Examples.db_with [])) as H.
  cbv zeta in H. destruct H as (H & _). exact (H codes_unique_example).
Defined.

(** X12 on the second user and a sample of quality 25. *)
Lemma enrollment_then_capture_witness :
  fst Cases.enrolled
  = EnrollReply {| enroll_success := true; enroll_user_id := Some 2;
                   enroll_message :=
                     "User created, ready for fingerprint capture" |}
  ∧ ∃ uid user,
      Some 2 = Some uid
      ∧ Database.get_user uid (snd Cases.enrolled) = Some user
      ∧ Effects.value
          (Admin.capture_sample Config.default Examples.joinpath Examples.tokens
                                Examples.camera_ok (Examples.extractor 25)
                                Examples.now uid 1 "tok" (snd Cases.enrolled))
        = Admin.Reply (Answers.accepted 1 25).
Proof.
  assert (Hr : fst Cases.enrolled
               = EnrollReply {| enroll_success := true;
                                enroll_user_id := Some 2;
                                enroll_message :=
                                  "User created, ready for fingerprint capture" |})
    by (vm_compute; reflexivity).
  split; [exact Hr|].
  destruct (enrollment_then_capture
              Examples.tokens Examples.stamp Config.default Examples.joinpath
              Examples.camera_ok (Examples.extractor 25) Examples.now
              "Bea" "B200" "tok"
              (Examples.db_with []) _ 1
              (Some "/var/lib/checador/templates/A123_1.xyt") 25 Hr eq_refl)
    as (uid & user & H1 & H2 & H3 & H4).
  exists uid, user. split; [exact H1|]. split; [exact H2|].
  apply H4; [reflexivity|reflexivity|simpl; lia].
Defined.

End DirectoryFacts.

(** ** The calls to the NBIS tools *)

Module NbisFacts.
Import Nbis.

Lemma lstrip_head s :
  lstrip s = [] ∨ ∃ c rest, lstrip s = c :: rest ∧ isspace c = false.
Proof.
  induction s as [|c rest IH]; [by left|]. simpl.
  destruct (isspace c) eqn:Hc; [done|]. right. by exists c, rest.
Qed.

Lemma lstrip_nil s : lstrip s = [] ↔ Forall (fun c => isspace c = true) s.
Proof.
  induction s as [|c rest IH]; simpl; [split; [constructor|done]|].
  destruct (isspace c) eqn:Hc.
  - rewrite IH. split; [by constructor|].
    by intros [_ ?]%Forall_cons.
  - split; [done|]. intros [? _]%Forall_cons. congruence.
Qed.

Lemma strip_nil s : strip s = [] ↔ Forall (fun c => isspace c = true) s.
Proof.
  unfold strip, rstrip. rewrite <- lstrip_nil.
  destruct (lstrip_head s) as [->|(c & rest & -> & Hc)]; [done|].
  split; [|done]. intros H.
  apply (f_equal reverse) in H. rewrite reverse_involutive in H. simpl in H.
  apply lstrip_nil in H. apply (proj1 (Forall_reverse _ _)) in H.
  apply Forall_cons in H as [? _]. congruence.
Qed.

Lemma is_minutia_spec s :
  is_minutia s = true ↔
  (∃ c, c ∈ s ∧ isspace c = false) ∧ startswith_hash s = false.
Proof.
  unfold is_minutia.
  destruct (strip s) as [|c rest] eqn:Hs.
  - split; [done|]. intros [(c & Hc & Hsp) _].
    apply strip_nil in Hs. rewrite Forall_forall in Hs.
    specialize (Hs c Hc). congruence.
  - rewrite negb_true_iff. split; [|tauto]. intros Hh. split; [|done].
    destruct (decide (Forall (fun c => isspace c = true) s)) as [Hall|Hex].
    + apply strip_nil in Hall. congruence.
    + apply not_Forall_Exists in Hex; [|apply _].
      apply Exists_exists in Hex as (d & Hd & Hsp).
      exists d. split; [done|]. simpl in Hsp. by destruct (isspace d).
Qed.


Section Tools.

Variable config : Config.t.
Variable run : list string -> Z -> process.
Variable with_suffix : string -> string -> option string.
Variable path_exists : string -> bool.
Variable read_lines : string -> option (list line).
Variable int_of_output : string -> option Z.

Local Abbreviation extract_features :=
  (Nbis.extract_features config run with_suffix path_exists read_lines).
Local Abbreviation match_fingerprints :=
  (Nbis.match_fingerprints config run int_of_output).
Local Abbreviation identify := (Nbis.identify config run int_of_output).
Local Abbreviation mindtct := (Config.nbis_mindtct (Config.fingerprint config)).
Local Abbreviation bozorth3 := (Config.nbis_bozorth3 (Config.fingerprint config)).

Local Abbreviation extracted :=
  (Nbis.extracted config run with_suffix path_exists).

Lemma extract_features_cases image_path :
  extract_features image_path = (false, None, 0)
  ∨ ∃ xyt_path,
      extracted image_path xyt_path
      ∧ extract_features image_path
        = (true, Some xyt_path, _calculate_quality (read_lines xyt_path)).
Proof.
  unfold Nbis.extract_features, Nbis.extracted.
  destruct (with_suffix image_path "") as [output_base|] eqn:Hbase;
    [|by left].
  destruct (with_suffix output_base ".xyt") as [xyt_path|] eqn:Hxyt;
    [|by left].
  destruct (run _ _) as [returncode stdout stderr| |e] eqn:Hrun;
    [|by left|by left].
  destruct (Z.eqb_spec returncode 0) as [->|Hne]; simpl; [|by left].
  destruct (path_exists xyt_path) eqn:Hex; simpl; [|by left].
  right. exists xyt_path. split; [|done].
  by exists output_base, stdout, stderr.
Qed.

Lemma quality_nonneg file : 0 ≤ _calculate_quality file.
Proof. destruct file; simpl; lia. Qed.

(** X14.  [extract_features] either fails with [(False, None, 0)] or
    succeeds with the minutiae file and its quality; it succeeds only when
    both paths could be built, mindtct exited with 0 and the minutiae file
    exists, and the quality it reports is never negative. *)
Theorem extract_features_outcome image_path :
  let r := extract_features image_path in
  0 ≤ snd r
  ∧ (fst (fst r) = false → r = (false, None, 0))
  ∧ (fst (fst r) = true →
     ∃ xyt_path,
       extracted image_path xyt_path
       ∧ r = (true, Some xyt_path, _calculate_quality (read_lines xyt_path))).
Proof.
  cbv zeta.
  destruct (extract_features_cases image_path) as [->|(xyt & Hex & ->)];
    simpl; split_and!; try done.
  - apply quality_nonneg.
  - intros _. by exists xyt.
Qed.

Section Capture.

Variable joinpath : string -> string -> string.
Variable active_tokens : gmap string Database.datetime.
Variable capture_fingerprint : string -> bool * option string.
Variable utcnow : string.

Local Abbreviation capture_sample :=
  (Admin.capture_sample config joinpath active_tokens capture_fingerprint
                        extract_features utcnow).

(** X15.  When [capture_sample] runs on [extract_features] and answers
    success, the Template it stored points to the path that
    [extract_features] built from the image path with [with_suffix]: a
    path at which a file was found after mindtct had exited with 0.  The
    quality stored is the number of minutiae lines read at that path, and
    is at least [min_quality_score].  Whether mindtct wrote that file is
    not said. *)
Theorem capture_sample_stores_minutiae_file user_id sample_number token db c :
  let r := capture_sample user_id sample_number token db in
  Effects.value r = Admin.Reply c → Admin.success c = true →
  ∃ user xyt_path,
    Database.get_user user_id db = Some user
    ∧ extracted (Admin.image_path_for config joinpath utcnow user sample_number)
                xyt_path
    ∧ Admin.quality c = _calculate_quality (read_lines xyt_path)
    ∧ Config.min_quality_score (Config.fingerprint config) ≤ Admin.quality c
    ∧ Effects.store r
      = Database.add_template (Database.User_id user) xyt_path
                              (Admin.quality c) db.
Proof.
  cbv zeta. unfold Admin.capture_sample.
  destruct (Admin.verify_token active_tokens token); simpl; [|done].
  unfold mbind, Effects.M_bind, Effects.get_user, Effects.read, Effects.call.
  destruct (Database.get_user user_id db) as [user|] eqn:Huser;
    [|by intros [= <-]].
  destruct (capture_fingerprint _) as [[] err]; simpl; [|by intros [= <-]].
  destruct (extract_features_cases
              (Admin.image_path_for config joinpath utcnow user sample_number))
    as [->|(xyt & Hex & ->)]; simpl; [by intros [= <-]|].
  destruct (Z.ltb_spec (_calculate_quality (read_lines xyt))
                       (Config.min_quality_score (Config.fingerprint config)));
    unfold Effects.value, Effects.store; simpl; [by intros [= <-]|].
  intros [= <-] _. simpl. by exists user, xyt.
Qed.

End Capture.

(** X16.  A template [identify] returns is one of the gallery for which
    bozorth3 exited with 0 and printed the score returned, a score above 0
    and at least [match_threshold]: a call that fails, times out or prints
    no integer never yields the winner. *)
Theorem identify_winner_matched probe_xyt gallery tid score :
  identify probe_xyt gallery = Some (Some tid, score) →
  ∃ gallery_xyt stdout stderr,
    (tid, gallery_xyt) ∈ gallery
    ∧ run [bozorth3; probe_xyt; gallery_xyt] 10 = Completed 0 stdout stderr
    ∧ int_of_output stdout = Some score
    ∧ 0 < score
    ∧ Config.match_threshold (Config.fingerprint config) ≤ score.
Proof.
  unfold Nbis.identify, Fingerprint.identify. intros Hid.
  rewrite IdentifyFacts.identify_unfold in Hid.
  destruct (Fingerprint.best_of match_fingerprints probe_xyt gallery)
    as [b t] eqn:Hscan. simpl in Hid.
  destruct (Z.geb_spec b (Config.match_threshold (Config.fingerprint config)));
    simpl in Hid; [|done].
  injection Hid as -> ->.
  destruct (IdentifyFacts.scan_winner _ _ _ _ _ _ _ Hscan)
    as [(_ & Hnone & _)|(Hlt & pre & i & p & post & -> & Hi & Hp & _ & _)];
    [done|].
  injection Hi as <-.
  unfold Nbis.match_fingerprints in Hp.
  destruct (run _ _) as [returncode stdout stderr| |e] eqn:Hrun; try done.
  destruct (Z.eqb_spec returncode 0) as [->|Hne]; simpl in Hp; [|done].
  exists p, stdout, stderr. split_and!; try done.
  apply elem_of_app. right. left.
Qed.

End Tools.


(** X14 on a run of mindtct that leaves its minutiae file. *)
Lemma extract_features_outcome_witness :
  fst (fst (Cases.extractor "/t/A123_1.png")) = true
  ∧ ∃ xyt_path,
      Nbis.extracted Cases.lenient Cases.run_tools Cases.with_suffix
                     Cases.file_exists "/t/A123_1.png" xyt_path
      ∧ Cases.extractor "/t/A123_1.png"
        = (true, Some xyt_path,
           _calculate_quality (Cases.read_lines xyt_path)).
Proof.
  split; [reflexivity|].
  pose proof (extract_features_outcome
                Cases.lenient Cases.run_tools Cases.with_suffix
                Cases.file_exists Cases.read_lines "/t/A123_1.png") as H.
  cbv zeta in H. destruct H as (_ & _ & H). exact (H eq_refl).
Defined.

(** The minutiae file of the example has two minutiae lines. *)
Example calculate_quality_example :
  _calculate_quality (Some Cases.minutiae_file) = 2.
Proof. reflexivity. Qed.

(** With a dot in the employee code, here ["A.123"], the path tested and
    reported is not the output base given to mindtct with [.xyt] added:
    a file left at ["/t/A.xyt"] passes for the minutiae of the sample. *)
Example extract_features_dotted_code :
  Pathlib.with_suffix "/t/A.123_1.png" "" = Some "/t/A.123_1"
  ∧ Pathlib.with_suffix "/t/A.123_1" ".xyt" = Some "/t/A.xyt"
  ∧ Nbis.extract_features Cases.lenient Cases.run_tools Pathlib.with_suffix
                          Cases.stale_exists Cases.read_lines
                          "/t/A.123_1.png"
    = (true, Some "/t/A.xyt", 2).
Proof. split_and!; vm_compute; reflexivity. Qed.

(** X15 on the first sample of user 1. *)
Lemma capture_sample_stores_minutiae_file_witness :
  Effects.value Cases.extracted_run = Admin.Reply (Answers.accepted 1 2)
  ∧ Admin.success (Answers.accepted 1 2) = true
  ∧ ∃ user xyt_path,
      Database.get_user 1 (Examples.db_with []) = Some user
      ∧ Nbis.extracted Cases.lenient Cases.run_tools Cases.with_suffix
                       Cases.file_exists
                       (Admin.image_path_for Cases.lenient Examples.joinpath Examples.now user 1)
                       xyt_path
      ∧ Admin.quality (Answers.accepted 1 2)
        = _calculate_quality (Cases.read_lines xyt_path)
      ∧ Config.min_quality_score (Config.fingerprint Cases.lenient)
        ≤ Admin.quality (Answers.accepted 1 2)
      ∧ Effects.store Cases.extracted_run
        = Database.add_template (Database.User_id user) xyt_path
            (Admin.quality (Answers.accepted 1 2)) (Examples.db_with []).
Proof.
  assert (Hv : Effects.value Cases.extracted_run
               = Admin.Reply (Answers.accepted 1 2))
    by (vm_compute; reflexivity).
  split; [exact Hv|]. split; [reflexivity|].
  exact (capture_sample_stores_minutiae_file
           Cases.lenient Cases.run_tools Cases.with_suffix Cases.file_exists
           Cases.read_lines Examples.joinpath Examples.tokens
           Examples.camera_ok Examples.now 1 1 "tok" (Examples.db_with []) _
           Hv eq_refl).
Defined.

(** X16 on a gallery of one template, for which bozorth3 prints 42. *)
Lemma identify_winner_matched_witness :
  Nbis.identify Config.default Cases.run_tools Cases.int_of_output
                "probe.xyt" [(5, "g.xyt")]
  = Some (Some 5, 42)
  ∧ ∃ gallery_xyt stdout stderr,
      (5, gallery_xyt) ∈ [(5, "g.xyt")]
      ∧ Cases.run_tools
          [Config.nbis_bozorth3 (Config.fingerprint Config.default);
           "probe.xyt"; gallery_xyt] 10
        = Completed 0 stdout stderr
      ∧ Cases.int_of_output stdout = Some 42
      ∧ 0 < 42
      ∧ Config.match_threshold (Config.fingerprint Config.default) ≤ 42.
Proof.
  assert (Hid : Nbis.identify Config.default Cases.run_tools
                              Cases.int_of_output "probe.xyt" [(5, "g.xyt")]
                = Some (Some 5, 42))
    by reflexivity.
  split; [exact Hid|].
  exact (identify_winner_matched Config.default Cases.run_tools
                                 Cases.int_of_output "probe.xyt"
                                 [(5, "g.xyt")] 5 42 Hid).
Defined.

End NbisFacts.

(** ** Identification: order, threshold and growth of the gallery *)

Module IdentifyMore.
Import Fingerprint Policy.

Lemma max_score_perm (l1 l2 : list Z) : l1 ≡ₚ l2 → max_score l1 = max_score l2.
Proof.
  unfold max_score. induction 1; simpl; lia.
Qed.

Section Scan.

Variable match_fingerprints : string -> string -> option Z.
Variable probe_xyt : string.

Local Abbreviation scan := (Fingerprint.scan match_fingerprints probe_xyt).
Local Abbreviation best_of := (Fingerprint.best_of match_fingerprints probe_xyt).
Local Abbreviation scores := (Fingerprint.scores match_fingerprints probe_xyt).

Lemma scores_perm g1 g2 : g1 ≡ₚ g2 → scores g1 ≡ₚ scores g2.
Proof.
  unfold Fingerprint.scores.
  induction 1 as [|x l1 l2 _ IH|x y l|l1 l2 l3 _ IH1 _ IH2]; simpl.
  - done.
  - destruct (match_fingerprints _ _); [by constructor|done].
  - destruct (match_fingerprints probe_xyt (snd x)),
             (match_fingerprints probe_xyt (snd y)); try done.
    apply perm_swap.
  - by etrans.
Qed.

(** The best template is among the templates that reach the maximum. *)
Lemma best_of_winner gallery :
  (max_score (scores gallery) = 0 ∧ snd (best_of gallery) = None)
  ∨ (0 < max_score (scores gallery)
     ∧ ∃ tid path, snd (best_of gallery) = Some tid
                   ∧ (tid, path) ∈ gallery
                   ∧ match_fingerprints probe_xyt path
                     = Some (max_score (scores gallery))).
Proof.
  pose proof (IdentifyFacts.best_of_max_score match_fingerprints probe_xyt
                gallery) as Hbest.
  destruct (best_of gallery) as [b t] eqn:Hscan. simpl in *. subst b.
  destruct (IdentifyFacts.scan_winner _ _ _ _ _ _ _ Hscan)
    as [(Hb & -> & _)|(Hlt & pre & i & p & post & -> & -> & Hp & _ & _)].
  - by left.
  - right. split; [done|]. exists i, p. split_and!; try done.
    apply elem_of_app. right. left.
Qed.

Lemma scan_app g1 g2 best tid :
  scan (g1 ++ g2) best tid
  = scan g2 (fst (scan g1 best tid)) (snd (scan g1 best tid)).
Proof.
  revert best tid. induction g1 as [|[id path] rest IH]; intros best tid;
    [done|].
  simpl. destruct (match_fingerprints probe_xyt path) as [s|]; [|apply IH].
  destruct (s >? best); apply IH.
Qed.

Section Threshold.

Variable config : Config.t.

Local Abbreviation identify :=
  (Fingerprint.identify match_fingerprints config probe_xyt).
Local Abbreviation threshold := (Config.match_threshold (Config.fingerprint config)).

(** X17.  When all the gallery entries that reach the maximum score carry
    the same template identifier, the result of [identify] does not depend
    on the order of the gallery. *)
Theorem identify_order_independent gallery gallery' :
  gallery ≡ₚ gallery' →
  (∀ t1 t2 p1 p2,
     (t1, p1) ∈ gallery → (t2, p2) ∈ gallery →
     match_fingerprints probe_xyt p1 = Some (max_score (scores gallery)) →
     match_fingerprints probe_xyt p2 = Some (max_score (scores gallery)) →
     t1 = t2) →
  identify gallery' = identify gallery.
Proof.
  intros Hperm Huniq.
  assert (Hmax : max_score (scores gallery') = max_score (scores gallery))
    by (apply max_score_perm; symmetry; by apply scores_perm).
  unfold Fingerprint.identify.
  rewrite !IdentifyFacts.identify_unfold, !IdentifyFacts.best_of_max_score.
  rewrite Hmax.
  assert (Hsnd : snd (best_of gallery') = snd (best_of gallery));
    [|by rewrite Hsnd].
  destruct (best_of_winner gallery) as [[H0 ->]|(Hpos & t & p & -> & Hin & Hp)];
    destruct (best_of_winner gallery')
      as [[H0' ->]|(Hpos' & t' & p' & -> & Hin' & Hp')];
    try done; try lia.
  f_equal. rewrite Hmax in Hp'. rewrite <- Hperm in Hin'.
  by eapply Huniq.
Qed.

(** X19.  A template added at the end of the gallery changes the result
    only when it scores strictly more than every template before it and
    more than 0: then it is the winner if its score reaches the threshold.
    A template that fails to match, or ties with the best so far, leaves
    the result as it was. *)
Theorem identify_gallery_grows gallery tid path :
  (∀ s, match_fingerprints probe_xyt path = Some s →
        s ≤ max_score (scores gallery) →
        identify (gallery ++ [(tid, path)]) = identify gallery)
  ∧ (match_fingerprints probe_xyt path = None →
     identify (gallery ++ [(tid, path)]) = identify gallery)
  ∧ (∀ s, match_fingerprints probe_xyt path = Some s →
        max_score (scores gallery) < s →
        identify (gallery ++ [(tid, path)])
        = if s >=? threshold then Some (Some tid, s) else None).
Proof.
  pose proof (IdentifyFacts.best_of_max_score match_fingerprints probe_xyt
                gallery) as Hbest.
  assert (Hstep : ∀ o, match_fingerprints probe_xyt path = o →
            Fingerprint.best_of match_fingerprints probe_xyt
                                (gallery ++ [(tid, path)])
            = match o with
              | Some s => if s >? fst (best_of gallery)
                          then (s, Some tid) else best_of gallery
              | None => best_of gallery
              end).
  { intros o Ho. unfold Fingerprint.best_of. rewrite scan_app. simpl.
    rewrite Ho. destruct o as [s|]; [|by destruct (scan gallery 0 None)].
    destruct (s >? _); [done|by destruct (scan gallery 0 None)]. }
  unfold Fingerprint.identify, Fingerprint.identify_logged. split_and!.
  - intros s Hs Hle. rewrite (Hstep _ Hs).
    destruct (Z.gtb_spec s (fst (best_of gallery))); [lia|done].
  - intros Hnone. by rewrite (Hstep _ Hnone).
  - intros s Hs Hlt. rewrite (Hstep _ Hs).
    destruct (Z.gtb_spec s (fst (best_of gallery))); [|lia].
    by destruct (s >=? threshold).
Qed.

End Threshold.

(** X18.  Raising the threshold never turns a rejection into a match and
    never changes the template or the score of a match: what [identify]
    returns under the higher threshold it returns under the lower one. *)
Theorem identify_threshold_monotone config1 config2 gallery r :
  Config.match_threshold (Config.fingerprint config1)
  ≤ Config.match_threshold (Config.fingerprint config2) →
  Fingerprint.identify match_fingerprints config2 probe_xyt gallery = Some r →
  Fingerprint.identify match_fingerprints config1 probe_xyt gallery = Some r.
Proof.
  intros Hle. unfold Fingerprint.identify.
  rewrite !IdentifyFacts.identify_unfold.
  destruct (Z.geb_spec (fst (best_of gallery))
              (Config.match_threshold (Config.fingerprint config2)));
    [|done].
  destruct (Z.geb_spec (fst (best_of gallery))
              (Config.match_threshold (Config.fingerprint config1)));
    [done|lia].
Qed.

End Scan.

Lemma u_gallery_single_maximum t1 t2 p1 p2 :
  (t1, p1) ∈ Examples.u_gallery → (t2, p2) ∈ Examples.u_gallery →
  Examples.matcher "probe.xyt" p1
  = Some (max_score (Fingerprint.scores Examples.matcher "probe.xyt"
                                        Examples.u_gallery)) →
  Examples.matcher "probe.xyt" p2
  = Some (max_score (Fingerprint.scores Examples.matcher "probe.xyt"
                                        Examples.u_gallery)) →
  t1 = t2.
Proof.
  unfold Examples.u_gallery. intros H1 H2 Hs1 Hs2.
  apply elem_of_cons in H1 as [[= -> ->]|H1];
    [|apply elem_of_cons in H1 as [[= -> ->]|H1];
      [by vm_compute in Hs1|by apply elem_of_nil in H1]].
  apply elem_of_cons in H2 as [[= -> ->]|H2]; [done|].
  apply elem_of_cons in H2 as [[= -> ->]|H2];
    [by vm_compute in Hs2|by apply elem_of_nil in H2].
Qed.

(** X17 on the gallery of the two users and the same gallery reversed. *)
Lemma identify_order_independent_witness :
  Examples.u_gallery ≡ₚ reverse Examples.u_gallery
  ∧ Fingerprint.identify Examples.matcher Config.default "probe.xyt"
                         (reverse Examples.u_gallery)
    = Fingerprint.identify Examples.matcher Config.default "probe.xyt"
                           Examples.u_gallery.
Proof.
  assert (Hperm : Examples.u_gallery ≡ₚ reverse Examples.u_gallery)
    by (symmetry; apply reverse_Permutation).
  split; [exact Hperm|].
  exact (identify_order_independent
           Examples.matcher "probe.xyt" Config.default Examples.u_gallery
           (reverse Examples.u_gallery) Hperm u_gallery_single_maximum).
Defined.

(** X18 on the thresholds 40 and 42. *)
Lemma identify_threshold_monotone_witness :
  Config.match_threshold (Config.fingerprint (Examples.with_threshold 40))
  ≤ Config.match_threshold (Config.fingerprint (Examples.with_threshold 42))
  ∧ Fingerprint.identify Examples.matcher (Examples.with_threshold 42)
                         "probe.xyt" Examples.u_gallery
    = Some (Some 1, 42)
  ∧ Fingerprint.identify Examples.matcher (Examples.with_threshold 40)
                         "probe.xyt" Examples.u_gallery
    = Some (Some 1, 42).
Proof.
  assert (Hle : Config.match_threshold
                  (Config.fingerprint (Examples.with_threshold 40))
                ≤ Config.match_threshold
                    (Config.fingerprint (Examples.with_threshold 42)))
    by (simpl; lia).
  split; [exact Hle|]. split; [reflexivity|].
  exact (identify_threshold_monotone
           Examples.matcher "probe.xyt" (Examples.with_threshold 40)
           (Examples.with_threshold 42) Examples.u_gallery (Some 1, 42)
           Hle eq_refl).
Defined.

(** X19 on a third template that scores 10. *)
Lemma identify_gallery_grows_witness :
  Examples.matcher "probe.xyt" "c.xyt" = Some 10
  ∧ 10 ≤ max_score (Fingerprint.scores Examples.matcher "probe.xyt"
                                       Examples.u_gallery)
  ∧ Fingerprint.identify Examples.matcher Config.default "probe.xyt"
                         (Examples.u_gallery ++ [(3, "c.xyt")])
    = Fingerprint.identify Examples.matcher Config.default "probe.xyt"
                           Examples.u_gallery.
Proof.
  assert (Hle : 10 ≤ max_score (Fingerprint.scores Examples.matcher
                                  "probe.xyt" Examples.u_gallery))
    by (vm_compute; discriminate).
  split; [reflexivity|]. split; [exact Hle|].
  destruct (identify_gallery_grows Examples.matcher "probe.xyt" Config.default
                                   Examples.u_gallery 3 "c.xyt") as (H & _).
  exact (H 10 eq_refl Hle).
Defined.

End IdentifyMore.

(** ** Camera: the region of interest *)

Module CameraFacts.
Import Camera.

Lemma adjust_inside len i : 0 ≤ i ≤ len → adjust len i = i.
Proof. intros H. unfold adjust. destruct (Z.ltb_spec i 0); lia. Qed.

Lemma adjust_range len i : 0 ≤ len → 0 ≤ adjust len i ≤ len.
Proof. intros H. unfold adjust. destruct (Z.ltb_spec i 0); lia. Qed.

Lemma slice_inside {A} (l : list A) (start size : Z) :
  0 ≤ start → 0 ≤ size → start + size ≤ Z.of_nat (length l) →
  slice l start (start + size)
  = take (Z.to_nat size) (drop (Z.to_nat start) l).
Proof.
  intros H1 H2 H3. unfold slice. rewrite !adjust_inside by lia.
  do 2 f_equal. lia.
Qed.

Lemma slice_inside_length {A} (l : list A) (start size : Z) :
  0 ≤ start → 0 ≤ size → start + size ≤ Z.of_nat (length l) →
  Z.of_nat (length (slice l start (start + size))) = size.
Proof.
  intros H1 H2 H3. rewrite slice_inside by done.
  rewrite length_take, length_drop. lia.
Qed.

Lemma slice_inside_lookup {A} (l : list A) (start size k : Z) :
  0 ≤ start → 0 ≤ size → start + size ≤ Z.of_nat (length l) →
  0 ≤ k < size →
  slice l start (start + size) !! Z.to_nat k = l !! Z.to_nat (start + k).
Proof.
  intros H1 H2 H3 Hk. rewrite slice_inside by done.
  rewrite lookup_take_lt by lia. rewrite lookup_drop. f_equal. lia.
Qed.

Lemma slice_length_inside len start size :
  0 ≤ start → 0 ≤ size → start + size ≤ len →
  slice_length len start (start + size) = size.
Proof.
  intros. unfold slice_length. rewrite !adjust_inside by lia. lia.
Qed.

Lemma out_of_bounds_false {A} camera (frame : ndarray A) :
  out_of_bounds camera frame = false ↔
  0 ≤ roi_x camera ∧ 0 ≤ roi_y camera
  ∧ roi_x camera + roi_width camera ≤ shape1 frame
  ∧ roi_y camera + roi_height camera ≤ shape0 frame.
Proof.
  unfold out_of_bounds. cbv zeta.
  rewrite !orb_false_iff, !Z.ltb_ge, !Z.gtb_ltb, !Z.ltb_ge. tauto.
Qed.

(** X20.  [capture_roi] gives nothing without a frame and the whole
    frame when the region of interest does not lie within it.  For a
    region within the frame, of sizes that are not negative, it gives an
    image of exactly the configured height and width whose pixel at
    [(i, j)] is the pixel of the frame at [(y + i, x + j)]. *)
Theorem capture_roi_crops {A} camera (frame : ndarray A) :
  capture_roi camera (@None (ndarray A)) = None
  ∧ (out_of_bounds camera frame = true →
     capture_roi camera (Some frame) = Some frame)
  ∧ (well_shaped frame → out_of_bounds camera frame = false →
     0 ≤ roi_width camera → 0 ≤ roi_height camera →
     ∃ roi, capture_roi camera (Some frame) = Some roi
            ∧ shape0 roi = roi_height camera
            ∧ shape1 roi = roi_width camera
            ∧ well_shaped roi
            ∧ ∀ i j, 0 ≤ i < roi_height camera → 0 ≤ j < roi_width camera →
                     pixel roi i j
                     = pixel frame (roi_y camera + i) (roi_x camera + j)).
Proof.
  split_and!; [done| |].
  - unfold out_of_bounds, capture_roi. cbv zeta. by intros ->.
  - intros (Hrows & Hw & Hall) Hin Hwn Hhn.
    pose proof (proj1 (out_of_bounds_false camera frame) Hin)
      as (Hx & Hy & Hxw & Hyh).
    unfold out_of_bounds in Hin. cbv zeta in Hin.
    unfold capture_roi. cbv zeta. rewrite Hin.
    eexists. split; [reflexivity|]. unfold crop. simpl.
    rewrite !slice_length_inside by lia.
    assert (Hsub : ∀ row, row ∈ slice (rows frame) (roi_y camera)
                                      (roi_y camera + roi_height camera) →
                          Z.of_nat (length row) = shape1 frame).
    { intros row Hrow. rewrite slice_inside in Hrow by lia.
      apply elem_of_take in Hrow as (k & Hk & _).
      rewrite lookup_drop in Hk. apply list_elem_of_lookup_2 in Hk.
      by apply (proj1 (Forall_forall _ _) Hall). }
    split_and!; try done.
    + unfold well_shaped. simpl. split_and!; [|done|].
      * rewrite length_fmap. apply slice_inside_length; lia.
      * apply Forall_fmap, Forall_forall. intros row Hrow. simpl.
        apply slice_inside_length; try lia. rewrite (Hsub row Hrow). lia.
    + intros i j Hi Hj. unfold pixel. simpl.
      destruct (Z.ltb_spec i 0); [lia|]. destruct (Z.ltb_spec j 0); [lia|].
      destruct (Z.ltb_spec (roi_y camera + i) 0); [lia|].
      destruct (Z.ltb_spec (roi_x camera + j) 0); [lia|]. simpl.
      rewrite list_lookup_fmap, slice_inside_lookup by lia.
      destruct (rows frame !! Z.to_nat (roi_y camera + i)) as [row|] eqn:Hrow;
        [|done].
      simpl. apply slice_inside_lookup; try lia.
      apply list_elem_of_lookup_2 in Hrow.
      rewrite (proj1 (Forall_forall _ _) Hall row Hrow). lia.
Qed.

(** X21.  The test of [capture_roi] does not look at the sign of the
    sizes: a region of negative width that ends within the frame is taken
    as it is, and the image returned has no columns. *)
Theorem capture_roi_negative_width {A} camera (frame : ndarray A) :
  well_shaped frame → out_of_bounds camera frame = false →
  roi_width camera < 0 → 0 ≤ roi_x camera + roi_width camera →
  ∃ roi, capture_roi camera (Some frame) = Some roi
         ∧ shape1 roi = 0
         ∧ Forall (fun row => row = []) (rows roi).
Proof.
  intros (Hrows & Hw & Hall) Hin Hneg Hend.
  pose proof (proj1 (out_of_bounds_false camera frame) Hin)
    as (Hx & Hy & Hxw & Hyh).
  unfold out_of_bounds in Hin. cbv zeta in Hin.
  unfold capture_roi. cbv zeta. rewrite Hin.
  eexists. split; [reflexivity|]. unfold crop. simpl. split.
  - unfold slice_length.
    pose proof (adjust_range (shape1 frame) (roi_x camera) Hw).
    rewrite (adjust_inside _ (roi_x camera + roi_width camera)) by lia.
    unfold adjust in *. destruct (Z.ltb_spec (roi_x camera) 0); lia.
  - apply Forall_fmap, Forall_forall. intros row _. simpl. unfold slice.
    assert (Hlen : 0 ≤ Z.of_nat (length row)) by lia.
    pose proof (adjust_range _ (roi_x camera) Hlen).
    pose proof (adjust_range _ (roi_x camera + roi_width camera) Hlen).
    replace (Z.to_nat _) with 0%nat; [done|].
    unfold adjust in *.
    destruct (Z.ltb_spec (roi_x camera) 0);
      destruct (Z.ltb_spec (roi_x camera + roi_width camera) 0); lia.
Qed.

Lemma roi_test_negb {A} camera (frame : ndarray A) :
  (roi_x camera >=? 0) && (roi_y camera >=? 0)
  && (roi_x camera + roi_width camera <=? shape1 frame)
  && (roi_y camera + roi_height camera <=? shape0 frame)
  = negb (out_of_bounds camera frame).
Proof.
  apply eq_true_iff_eq.
  rewrite negb_true_iff, out_of_bounds_false.
  rewrite !andb_true_iff, !Z.geb_leb, !Z.leb_le. tauto.
Qed.

Lemma test_camera_frame {A} camera (frame : ndarray A) :
  roi_valid (test_camera camera true true (Some frame))
  = negb (out_of_bounds camera frame).
Proof.
  unfold test_camera. simpl. rewrite roi_test_negb.
  by destruct (out_of_bounds camera frame).
Qed.

(** X22.  The diagnostics of [test_camera] agree with [capture_roi]: the
    region is reported valid exactly when the device is there, the camera
    opens, a frame is read and [capture_roi] would not fall back to the
    full frame for it.  The error is absent exactly when the region is
    valid, and each step reported done implies the steps before it. *)
Theorem test_camera_agrees_with_capture {A} camera device_exists open_ok
    (capture_frame : option (ndarray A)) :
  let d := test_camera camera device_exists open_ok capture_frame in
  (roi_valid d = true ↔
   device_exists = true ∧ open_ok = true
   ∧ ∃ frame, capture_frame = Some frame
              ∧ out_of_bounds camera frame = false)
  ∧ (error d = None ↔ roi_valid d = true)
  ∧ (roi_valid d = true → frame_captured d = true)
  ∧ (frame_captured d = true → opened d = true ∧ is_Some (resolution d))
  ∧ (opened d = true → accessible d = true)
  ∧ d_device d = device camera.
Proof.
  cbv zeta. unfold test_camera.
  destruct device_exists; simpl;
    [|split_and!; try done; split; [done|by intros [? _]]].
  destruct open_ok; simpl;
    [|split_and!; try done; split; [done|by intros (_ & ? & _)]].
  destruct capture_frame as [frame|]; simpl;
    [|split_and!; try done; split; [done|by intros (_ & _ & ? & ? & _)]].
  rewrite roi_test_negb.
  destruct (out_of_bounds camera frame) eqn:Hout; simpl;
    split_and!; try done; try (intros _; eauto).
  - split; [done|]. intros (_ & _ & f & [= <-] & Hf). congruence.
  - split; [|done]. intros _. eauto.
Qed.

(** X23.  [set_roi] stores the request as it comes, whatever its values,
    and leaves the other camera settings alone; afterwards [test_camera]
    reports the region valid exactly when the request lies within the
    frame read, and [capture_roi] falls back to the full frame when it
    does not. *)
Theorem set_roi_then_capture {A} roi camera (frame : ndarray A) :
  let camera' := set_roi roi camera in
  let inside := 0 ≤ r_x roi ∧ 0 ≤ r_y roi
                ∧ r_x roi + r_width roi ≤ shape1 frame
                ∧ r_y roi + r_height roi ≤ shape0 frame in
  (device camera', width camera', height camera', fps camera')
  = (device camera, width camera, height camera, fps camera)
  ∧ (roi_x camera', roi_y camera', roi_width camera', roi_height camera')
    = (r_x roi, r_y roi, r_width roi, r_height roi)
  ∧ (roi_valid (test_camera camera' true true (Some frame)) = true ↔ inside)
  ∧ (¬ inside → capture_roi camera' (Some frame) = Some frame)
  ∧ (inside →
     capture_roi camera' (Some frame)
     = Some (crop frame (r_y roi) (r_y roi + r_height roi)
                        (r_x roi) (r_x roi + r_width roi))).
Proof.
  cbv zeta.
  pose proof (out_of_bounds_false (set_roi roi camera) frame) as Hb.
  simpl in Hb.
  split_and!; try done.
  - rewrite test_camera_frame, negb_true_iff. apply Hb.
  - intros Hnot.
    assert (Hout : out_of_bounds (set_roi roi camera) frame = true)
      by (apply not_false_iff_true; intros H; by apply Hnot, Hb).
    unfold out_of_bounds in Hout. cbv zeta in Hout.
    unfold capture_roi. cbv zeta. by rewrite Hout.
  - intros Hin. apply Hb in Hin. unfold out_of_bounds in Hin.
    cbv zeta in Hin. unfold capture_roi. cbv zeta. by rewrite Hin.
Qed.

Lemma frame_well_shaped : well_shaped Cases.frame.
Proof.
  split; [reflexivity|]. split; [simpl; lia|]. repeat constructor.
Qed.

(** X20 on the region of two rows and two columns at (1, 1). *)
Lemma capture_roi_crops_witness :
  well_shaped Cases.frame
  ∧ out_of_bounds (Cases.camera_with 1 1 2 2) Cases.frame = false
  ∧ ∃ roi, capture_roi (Cases.camera_with 1 1 2 2) (Some Cases.frame) = Some roi
           ∧ shape0 roi = 2 ∧ shape1 roi = 2
           ∧ rows roi = [[22; 23]; [32; 33]].
Proof.
  split; [exact frame_well_shaped|]. split; [reflexivity|].
  pose proof (capture_roi_crops (Cases.camera_with 1 1 2 2) Cases.frame) as H.
  destruct H as (_ & _ & H).
  destruct (H frame_well_shaped eq_refl) as (roi & Hroi & H0 & H1 & _);
    [simpl; lia|simpl; lia|].
  exists roi. split; [exact Hroi|]. split; [exact H0|]. split; [exact H1|].
  by injection Hroi as <-.
Defined.

(** X21 on a region of width -1 that starts at column 2. *)
Lemma capture_roi_negative_width_witness :
  well_shaped Cases.frame
  ∧ out_of_bounds (Cases.camera_with 2 0 (-1) 2) Cases.frame = false
  ∧ ∃ roi,
      capture_roi (Cases.camera_with 2 0 (-1) 2) (Some Cases.frame) = Some roi
      ∧ shape1 roi = 0
      ∧ Forall (fun row => row = []) (rows roi).
Proof.
  split; [exact frame_well_shaped|]. split; [reflexivity|].
  apply (capture_roi_negative_width (Cases.camera_with 2 0 (-1) 2) Cases.frame
                                    frame_well_shaped eq_refl);
    simpl; lia.
Defined.

(** X22 on a camera that opens and a region within the frame. *)
Lemma test_camera_agrees_with_capture_witness :
  out_of_bounds (Cases.camera_with 1 1 2 2) Cases.frame = false
  ∧ roi_valid (test_camera (Cases.camera_with 1 1 2 2) true true
                           (Some Cases.frame))
    = true.
Proof.
  split; [reflexivity|].
  pose proof (test_camera_agrees_with_capture
                (Cases.camera_with 1 1 2 2) true true (Some Cases.frame)) as H.
  cbv zeta in H. destruct H as (H & _). apply H.
  split; [reflexivity|]. split; [reflexivity|].
  exists Cases.frame. split; reflexivity.
Defined.

(** X23 on a request that reaches beyond the frame. *)
Lemma set_roi_then_capture_witness :
  ¬ (0 ≤ 3 ∧ 0 ≤ 0 ∧ 3 + 2 ≤ shape1 Cases.frame ∧ 0 + 2 ≤ shape0 Cases.frame)
  ∧ capture_roi (Cases.camera_with 3 0 2 2) (Some Cases.frame)
    = Some Cases.frame.
Proof.
  assert (Hnot : ¬ (0 ≤ 3 ∧ 0 ≤ 0 ∧ 3 + 2 ≤ shape1 Cases.frame
                    ∧ 0 + 2 ≤ shape0 Cases.frame))
    by (simpl; lia).
  split; [exact Hnot|].
  pose proof (set_roi_then_capture
                {| r_x := 3; r_y := 0; r_width := 2; r_height := 2 |}
                default_camera Cases.frame) as H.
  cbv zeta in H. destruct H as (_ & _ & _ & H & _). exact (H Hnot).
Defined.

End CameraFacts.
